(** * TilesPuzzle-Solver: the [Puzzle] state and its move generator

    A shallow embedding of [puzzle.py].  The module models a sliding-tile
    puzzle on a torus: a grid of integers with one empty cell (value 0),
    the moves offered from a state ([get_moves]), the application of one
    move ([compute_move]), equality and hashing of states, and the two
    goal states of a grid size ([find_goals]).

    Conventions of the embedding:
    - Python's [int] and numpy's integer scalars are [Z];
    - a two-dimensional [np.ndarray] is the list of its rows; a value of
      that type is always rectangular, which the predicate [ndarray2]
      states where a proof needs it (an array without rows has no columns
      here);
    - the cells of a grid are whole numbers, also when the array holds
      them as floats.  The [np.dtype] of an array is no part of the list
      of its rows: no method of [Puzzle] changes the dtype of a grid
      ([copy.deepcopy], the item assignment and [from_state] keep it), and
      the functions whose result depends on it, the two that print cells
      ([__hash__], [to_single_line_str]), take it as an argument.
      A list of Python ints becomes an array through [np.asarray], which
      chooses the dtype from the values and may round them;
    - a raised exception is the [Raise] branch of [result];
    - mutation of an object ([__setitem__], the [swap] of [compute_move])
      is state passing: the operation returns the object after the
      mutation.  [copy.deepcopy] is then the identity on values;
    - Python's [%] is [Z.modulo]: both take the sign of the divisor.  They
      differ for a divisor 0 only, which no state has, since [__init__]
      refuses a width or a height below 2. *)

From Stdlib Require Import Ascii.
From stdpp Require Import base numbers list strings pretty.

Local Open Scope Z_scope.

(** ** Exceptions *)

Inductive PyError : Type :=
  | ValueError      (* "Invalid puzzle dimensions ...", or numpy's reshape *)
  | TileNotFound    (* Exception("No tile marked as ... found ...") *)
  | IndexError      (* numpy index out of bounds *)
  | NameError.      (* a free name that no scope binds *)

Inductive result (A : Type) : Type :=
  | Ok (a : A)
  | Raise (e : PyError).
Arguments Ok {A} a.
Arguments Raise {A} e.

(** The exception monad; stdpp's notation [x ← m; k] binds in it. *)
#[global] Instance result_bind : MBind result :=
  fun A B (k : A -> result B) (m : result A) =>
    match m with
    | Ok a => k a
    | Raise e => Raise e
    end.

#[global] Instance result_ret : MRet result := fun A (a : A) => Ok a.

#[global] Instance PyError_eq_dec : EqDecision PyError.
Proof. solve_decision. Defined.

#[global] Instance result_eq_dec {A} `{EqDecision A} : EqDecision (result A).
Proof. solve_decision. Defined.

(** ** Types of the module *)

(** The type aliases of the module are abbreviations here as well. *)
Abbreviation PuzzleInternalState := (list (list Z)).
Abbreviation PuzzleTilePos := (Z * Z)%type.
Abbreviation IntDirection2D := (Z * Z)%type.
(** Cost, TileToMove, Direction *)
Abbreviation PuzzleMove := (Z * (Z * Z) * (Z * Z))%type.

(** ** The part of numpy the module uses *)

Module np.

(** The dtypes of the grids of whole numbers that reach this module: the
    default integer type ([np.arange], a list of ints that all fit; where
    C's [long] has 32 bits it is [int32] for values that fit, with the
    same cells and the same printed form), the one [parse_puzzle] asks
    for, and those numpy chooses for a list with an int outside [int64],
    of which [float64] is also the dtype of a grid of floats handed to
    [from_state]. *)
Inductive dtype : Type :=
  | int64
  | uint32
  | uint64
  | float64
  | object_.

#[global] Instance dtype_eq_dec : EqDecision dtype.
Proof. solve_decision. Defined.

Definition fits_int64 (z : Z) : bool :=
  (- 2 ^ 63 <=? z) && (z <? 2 ^ 63).

Section AsArray.

(** What numpy makes of a list of Python ints of which at least one is
    outside [int64]: the dtype follows from the values ([uint64],
    [float64] or [object_]) and the cells are rounded to the nearest
    float when it is [float64]. *)
Variable asarray_wide : list Z -> dtype * list Z.

(** [np.asarray(l)] of a flat list of Python ints, which [np.reshape]
    applies to an argument that is no array: ints that all fit [int64]
    are stored as they are, and the array of the empty list is an array
    of floats. *)
Definition asarray (l : list Z) : dtype * list Z :=
  match l with
  | [] => (float64, [])
  | _ => if forallb fits_int64 l then (int64, l) else asarray_wide l
  end.

End AsArray.

(** [a.shape[0]] and [a.shape[1]] of a two-dimensional array. *)
Definition shape0 (a : PuzzleInternalState) : Z := Z.of_nat (length a).
Definition shape1 (a : PuzzleInternalState) : Z :=
  Z.of_nat (length (hd [] a)).

(** One index of [a[i, j]] against an axis of size [n]: a negative index
    counts from the end, anything outside [-n, n) raises. *)
Definition axis_index (n : nat) (i : Z) : result nat :=
  if (0 <=? i) && (i <? Z.of_nat n) then Ok (Z.to_nat i)
  else if (- Z.of_nat n <=? i) && (i <? 0) then Ok (Z.to_nat (i + Z.of_nat n))
  else Raise IndexError.

(** [a[i, j]] *)
Definition get (a : PuzzleInternalState) (i j : Z) : result Z :=
  r ← axis_index (length a) i;
  match a !! r with
  | None => Raise IndexError
  | Some row =>
      c ← axis_index (length row) j;
      match row !! c with
      | None => Raise IndexError
      | Some v => Ok v
      end
  end.

(** [a[i, j] = v] for a value [v] that the dtype of [a] holds, such as
    one read from [a]: numpy stores it as it is.  The only writes of the
    module are those of [swap], which puts back two values read from the
    same array.  (A value the dtype does not hold is converted first, or
    refused with an [OverflowError]; that conversion is not modelled.) *)
Definition set (a : PuzzleInternalState) (i j : Z) (v : Z)
  : result PuzzleInternalState :=
  r ← axis_index (length a) i;
  match a !! r with
  | None => Raise IndexError
  | Some row =>
      c ← axis_index (length row) j;
      Ok (<[r := <[c := v]> row]> a)
  end.

(** [nrows] consecutive rows of [ncols] values each. *)
Fixpoint rows_of (ncols nrows : nat) (l : list Z) : PuzzleInternalState :=
  match nrows with
  | O => []
  | S n => take ncols l :: rows_of ncols n (drop ncols l)
  end.

(** [np.reshape(l, (r, c))] of the cells of a flat array, in C (row-major)
    order.  One of the two sizes may be [-1] and is then inferred. *)
Definition reshape (l : list Z) (r c : Z) : result PuzzleInternalState :=
  let n := Z.of_nat (length l) in
  if (r =? -1) && (c =? -1) then Raise ValueError
  else if r =? -1 then
    if (0 <? c) && (n mod c =? 0)
    then Ok (rows_of (Z.to_nat c) (Z.to_nat (n / c)) l)
    else Raise ValueError
  else if c =? -1 then
    if (0 <? r) && (n mod r =? 0)
    then Ok (rows_of (Z.to_nat (n / r)) (Z.to_nat r) l)
    else Raise ValueError
  else if (0 <=? r) && (0 <=? c) && (r * c =? n)
  then Ok (rows_of (Z.to_nat c) (Z.to_nat r) l)
  else Raise ValueError.

(** [a.T]: row [j] of the result is column [j] of [a]. *)
Definition T (a : PuzzleInternalState) : PuzzleInternalState :=
  (fun j : nat => (fun row : list Z => row !!! j) <$> a)
    <$> seq 0 (length (hd [] a)).

(** [np.arange(count)] *)
Definition arange (count : Z) : list Z :=
  seqZ 0 count.

(** [np.array_equal(a1, a2)]: same shape and equal elements. *)
Fixpoint row_equal (r1 r2 : list Z) : bool :=
  match r1, r2 with
  | [], [] => true
  | v1 :: r1', v2 :: r2' => (v1 =? v2) && row_equal r1' r2'
  | _, _ => false
  end.

Fixpoint array_equal (a1 a2 : PuzzleInternalState) : bool :=
  match a1, a2 with
  | [], [] => true
  | r1 :: a1', r2 :: a2' => row_equal r1 r2 && array_equal a1' a2'
  | _, _ => false
  end.

End np.

(** A value of type [np.ndarray] with two axes: [h] rows of [w] cells. *)
Definition ndarray2 (a : PuzzleInternalState) (w h : Z) : Prop :=
  Z.of_nat (length a) = h /\ Forall (fun row => Z.of_nat (length row) = w) a.

(** Equality of coordinate pairs, as Python compares tuples of ints. *)
Definition pos_eqb (p q : Z * Z) : bool := (p.1 =? q.1) && (p.2 =? q.2).

(** ** Name resolution

    Names bound at module level in [puzzle.py], and the names of the
    [builtins] module that start with two underscores. *)
Definition module_globals : list string :=
  ["__name__"; "__doc__"; "__package__"; "__loader__"; "__spec__";
   "__file__"; "__cached__"; "__builtins__";
   "copy"; "List"; "Tuple"; "ISolvable"; "np";
   "PuzzleInternalState"; "PuzzleTilePos"; "IntDirection2D"; "PuzzleMove";
   "Puzzle"; "find_goals"; "parse_puzzle"; "load_puzzles"].

Definition builtins_dunder : list string :=
  ["__build_class__"; "__debug__"; "__doc__"; "__import__";
   "__loader__"; "__name__"; "__package__"; "__spec__"].

(** A free name of a method body that starts and ends with two
    underscores: it is not mangled, the class body is no enclosing scope,
    so it is bound iff the module's globals or the builtins bind it. *)
Definition resolve_free_dunder (name : string) : bool :=
  bool_decide (name ∈ module_globals) || bool_decide (name ∈ builtins_dunder).

(** ** The class Puzzle *)

Module Puzzle.

Record t : Type := mk {
  __dimensions : Z * Z;
  __grid : PuzzleInternalState;
  __tile_pos : PuzzleTilePos
}.

(** [dimension] is a [Tuple[int, int]], so [len(dimension) < 2] is false.
    The base class [ISolvable] comes from a module that is not among the
    sources; its constructor takes no argument and sets nothing here. *)
Definition __init__ (grid : PuzzleInternalState) (dimension : Z * Z)
    (empty_tile_position : PuzzleTilePos) : result t :=
  if (dimension.1 <? 2) || (dimension.2 <? 2) then Raise ValueError
  else Ok {| __dimensions := dimension;
             __grid := grid;
             __tile_pos := empty_tile_position |}.

Fixpoint locate_in_row (row : list Z) (tile : Z) (x : Z) : option Z :=
  match row with
  | [] => None
  | t :: row' => if t =? tile then Some x else locate_in_row row' tile (x + 1)
  end.

Fixpoint locate_from (state : PuzzleInternalState) (tile : Z) (y : Z)
  : result PuzzleTilePos :=
  match state with
  | [] => Raise TileNotFound
  | row :: state' =>
      match locate_in_row row tile 0 with
      | Some x => Ok (x, y)
      | None => locate_from state' tile (y + 1)
      end
  end.

Definition locate_tile (state : PuzzleInternalState) (tile : Z)
  : result PuzzleTilePos :=
  locate_from state tile 0.

Definition from_state (state : PuzzleInternalState)
    (tile_pos : option PuzzleTilePos) : result t :=
  pos ← match tile_pos with
         | None => locate_tile state 0
         | Some p => Ok p
         end;
  __init__ state (np.shape1 state, np.shape0 state) pos.

Section FromIntList.

Variable asarray_wide : list Z -> np.dtype * list Z.

(** [int_list] is a list of Python ints, no array: [np.reshape] converts
    it with [np.asarray] first.  The dtype of the grid of the new state is
    [from_int_list_dtype].  (The list of [np.uint32] scalars that
    [parse_puzzle] passes gives the same cells in a [uint32] grid.) *)
Definition from_int_list (int_list : list Z) (dimension : Z * Z) : result t :=
  grid ← np.reshape (np.asarray asarray_wide int_list).2
                    dimension.2 dimension.1;
  from_state grid None.

Definition from_int_list_dtype (int_list : list Z) : np.dtype :=
  (np.asarray asarray_wide int_list).1.

End FromIntList.

Definition get_internal_state (self : t) : PuzzleInternalState := __grid self.
Definition get_dimensions (self : t) : Z * Z := __dimensions self.
Definition get_current_pos (self : t) : PuzzleTilePos := __tile_pos self.

Definition __getitem__ (self : t) (pos : Z * Z) : result Z :=
  np.get (__grid self) pos.2 pos.1.

(** [value] is a value that the dtype of the grid holds (see [np.set]). *)
Definition __setitem__ (self : t) (key : Z * Z) (value : Z) : result t :=
  g ← np.set (__grid self) key.2 key.1 value;
  Ok {| __dimensions := __dimensions self;
        __grid := g;
        __tile_pos := __tile_pos self |}.

(** The local function [cost] of [get_moves]; [w], [h], [x], [y] are the
    variables it closes over. *)
Definition cost (w h x y : Z) (tile : PuzzleTilePos) : Z :=
  if (w >? 2) && (((tile.1 =? 0) && (x =? w - 1))
                  || ((tile.1 =? w - 1) && (x =? 0))) then 2
  else if (h >? 2) && (((tile.2 =? 0) && (y =? h - 1))
                       || ((tile.2 =? h - 1) && (y =? 0))) then 2
  else 1.

(** The list [laterals] that [get_moves] builds from the four neighbours
    of the empty cell [(x, y)]. *)
Definition laterals_of (w h x y : Z) : list (PuzzleTilePos * IntDirection2D) :=
  let top := (x, (y - 1) mod h) in
  let right := ((x + 1) mod w, y) in
  let bottom := (x, (y + 1) mod h) in
  let left := ((x - 1) mod w, y) in
  let laterals := [] in
  let laterals :=
    if pos_eqb top bottom then laterals ++ [(top, (0, -1))]
    else (laterals ++ [(top, (0, -1))]) ++ [(bottom, (0, 1))] in
  let laterals :=
    if pos_eqb right left then laterals ++ [(right, (-1, 0))]
    else (laterals ++ [(right, (-1, 0))]) ++ [(left, (1, 0))] in
  laterals.

(** The list [diagonals] that [get_moves] builds.  [if d1 and d2] tests
    that both are set: a tuple of two coordinates is true. *)
Definition diagonals_of (w h x y : Z) : list (PuzzleTilePos * IntDirection2D) :=
  let diagonals := [] in
  if negb (pos_eqb (h, w) (2, 2)) then
    let '(d1, d2, dir1, dir2) :=
      (@None PuzzleTilePos, @None PuzzleTilePos,
       @None IntDirection2D, @None IntDirection2D) in
    let '(d1, d2, dir1, dir2) :=
      if pos_eqb (x, y) (0, 0) || pos_eqb (x, y) (w - 1, h - 1)
      then (Some ((x - 1) mod w, (y - 1) mod h),
            Some ((x + 1) mod w, (y + 1) mod h),
            Some (1, 1), Some (-1, -1))
      else (d1, d2, dir1, dir2) in
    let '(d1, d2, dir1, dir2) :=
      if pos_eqb (x, y) (w - 1, 0) || pos_eqb (x, y) (0, h - 1)
      then (Some ((x - 1) mod w, (y + 1) mod h),
            Some ((x + 1) mod w, (y - 1) mod h),
            Some (1, -1), Some (-1, 1))
      else (d1, d2, dir1, dir2) in
    match d1, d2, dir1, dir2 with
    | Some t1, Some t2, Some v1, Some v2 =>
        (diagonals ++ [(t1, v1)]) ++ [(t2, v2)]
    | _, _, _, _ => diagonals
    end
  else diagonals.

Definition get_moves (self : t) : list PuzzleMove :=
  let moves : list PuzzleMove := [] in
  let '(w, h) := __dimensions self in
  let '(x, y) := __tile_pos self in
  let laterals := laterals_of w h x y in
  let moves :=
    foldl (fun moves t => moves ++ [(cost w h x y t.1, t.1, t.2)])
          moves laterals in
  let diagonals := diagonals_of w h x y in
  let moves :=
    foldl (fun moves t => moves ++ [(3, t.1, t.2)]) moves diagonals in
  moves.

(** The local function [swap] of [compute_move]:
    [a[p1], a[p2] = a[p2], a[p1]]. *)
Definition swap (a : t) (p1 p2 : PuzzleTilePos) : result t :=
  v2 ← __getitem__ a p2;
  v1 ← __getitem__ a p1;
  a ← __setitem__ a p1 v2;
  __setitem__ a p2 v1.

Definition compute_move (self : t) (from_state_ : t)
    (move_to_apply : PuzzleMove) : result t :=
  let '(w, h) := __dimensions self in
  let '(cost, tile_pos, direction) := move_to_apply in
  let '(tile_x, tile_y) := tile_pos in
  let new_empty_tile_pos :=
    ((tile_x + direction.1) mod w, (tile_y + direction.2) mod h) in
  let computed_state := from_state_ in
  computed_state ← swap computed_state tile_pos new_empty_tile_pos;
  from_state (__grid computed_state) (Some tile_pos).

(** [__eq__] takes any object; [PyObject] separates the puzzles from the
    rest.  The test [self is o] answers [True] for one and the same object,
    for which [np.array_equal] answers [True] as well (the cells are
    integers), so the value model needs no object identity. *)
Inductive PyObject : Type :=
  | PuzzleObject (p : t)
  | OtherObject.

Definition __eq__ (self : t) (o : PyObject) : bool :=
  match o with
  | OtherObject => false
  | PuzzleObject o => np.array_equal (__grid self) (__grid o)
  end.

Section Globals.

(** What calling the object bound to a global name on one argument
    returns, as a truth value. *)
Variable call_global : string -> PyObject -> result bool.

(** [return not __eq__(o)]: [__eq__] is a free name of the method body. *)
Definition __ne__ (self : t) (o : PyObject) : result bool :=
  if resolve_free_dunder "__eq__"
  then (b ← call_global "__eq__" o; Ok (negb b))
  else Raise NameError.

End Globals.

Section Hash.

(** Python's [hash] of a [str], and numpy's [str] of an array, which
    prints the cells of a grid of floats with a decimal point: it is a
    function of the dtype and of the cells. *)
Variable hash : string -> Z.
Variable array_str : np.dtype -> PuzzleInternalState -> string.

(** [dt] is the dtype of the grid of [self]. *)
Definition __hash__ (dt : np.dtype) (self : t) : Z :=
  hash (array_str dt (__grid self)).

End Hash.

Section Str.

(** Python's [str] of a float that is a whole number, such as ['1.0'] or
    ['1e+16']. *)
Variable float_str : Z -> string.

(** [str(c)] of a cell of [tolist()], which turns the cells of an array
    of integers (and keeps those of an array of objects) into Python ints
    and those of an array of floats into Python floats.  [str] of an int
    is its decimal numeral, with a minus sign when negative: stdpp's
    [pretty] on [Z]. *)
Definition str_cell (dt : np.dtype) (c : Z) : string :=
  match dt with
  | np.float64 => float_str c
  | _ => pretty c
  end.

(** [dt] is the dtype of the grid of [self]. *)
Definition to_single_line_str (dt : np.dtype) (self : t) : string :=
  let str_l : list string := [] in
  let str_l :=
    foldl (fun str_l r =>
             foldl (fun str_l c => str_l ++ [str_cell dt c]) str_l r)
          str_l (__grid self) in
  String.concat " " str_l.

End Str.

End Puzzle.

(** ** Goal states *)

Definition find_goals (puzzle : Puzzle.t) : result (Puzzle.t * Puzzle.t) :=
  let dim := Puzzle.get_dimensions puzzle in
  let count := dim.1 * dim.2 in
  let lin := np.arange count in
  lin ← match lin with
        | [] => Raise IndexError
        | lin0 :: lin1 => Ok (lin1 ++ [lin0])
        end;
  goal1 ← np.reshape lin dim.2 dim.1;
  goal2 ← np.reshape lin dim.1 dim.2;
  let goal2 := np.T goal2 in
  g1 ← Puzzle.from_state goal1 None;
  g2 ← Puzzle.from_state goal2 None;
  Ok (g1, g2).

(** ** Vocabulary of the statements *)

(** The cell in row [i], column [j] of a grid. *)
Definition cell (a : PuzzleInternalState) (i j : nat) : option Z :=
  a !! i ≫= fun row => row !! j.

(** A move is told by its direction: vertical and horizontal moves are the
    lateral ones, diagonal moves change both coordinates. *)
Definition is_vertical (m : PuzzleMove) : bool :=
  (m.2.1 =? 0) && negb (m.2.2 =? 0).
Definition is_horizontal (m : PuzzleMove) : bool :=
  negb (m.2.1 =? 0) && (m.2.2 =? 0).
Definition is_lateral (m : PuzzleMove) : bool :=
  is_vertical m || is_horizontal m.
Definition is_diagonal (m : PuzzleMove) : bool :=
  negb (m.2.1 =? 0) && negb (m.2.2 =? 0).

Definition is_corner (w h : Z) (p : PuzzleTilePos) : bool :=
  pos_eqb p (0, 0) || pos_eqb p (w - 1, 0)
  || pos_eqb p (0, h - 1) || pos_eqb p (w - 1, h - 1).

(** The first cell, in row-major order, that holds [tile]. *)
Definition first_match (state : PuzzleInternalState) (tile : Z) (r c : nat)
  : Prop :=
  cell state r c = Some tile /\
  forall r' c', (r' < r \/ (r' = r /\ c' < c))%nat ->
    cell state r' c' <> Some tile.

(** The seam condition of the cost rule: the move crosses an edge of the
    grid along an axis of size above 2. *)
Definition crosses_seam (w h : Z) (empty tile : PuzzleTilePos) : Prop :=
  (w > 2 /\ ((tile.1 = 0 /\ empty.1 = w - 1) \/ (tile.1 = w - 1 /\ empty.1 = 0)))
  \/
  (h > 2 /\ ((tile.2 = 0 /\ empty.2 = h - 1) \/ (tile.2 = h - 1 /\ empty.2 = 0))).

(** The entries of the move list, by name. *)
Section Entries.

Variables w h x y : Z.

Definition lateral_entry (tile : PuzzleTilePos) (dir : IntDirection2D)
  : PuzzleMove :=
  (Puzzle.cost w h x y tile, tile, dir).

Definition top_entry : PuzzleMove := lateral_entry (x, (y - 1) mod h) (0, -1).
Definition bottom_entry : PuzzleMove := lateral_entry (x, (y + 1) mod h) (0, 1).
Definition right_entry : PuzzleMove := lateral_entry ((x + 1) mod w, y) (-1, 0).
Definition left_entry : PuzzleMove := lateral_entry ((x - 1) mod w, y) (1, 0).

Definition vertical_entries : list PuzzleMove :=
  if h =? 2 then [top_entry] else [top_entry; bottom_entry].

Definition diagonal_entries : list PuzzleMove :=
  if (w =? 2) && (h =? 2) then []
  else if pos_eqb (x, y) (0, 0) || pos_eqb (x, y) (w - 1, h - 1)
  then [(3, ((x - 1) mod w, (y - 1) mod h), (1, 1));
        (3, ((x + 1) mod w, (y + 1) mod h), (-1, -1))]
  else if pos_eqb (x, y) (w - 1, 0) || pos_eqb (x, y) (0, h - 1)
  then [(3, ((x - 1) mod w, (y + 1) mod h), (1, -1));
        (3, ((x + 1) mod w, (y - 1) mod h), (-1, 1))]
  else [].

(** The order the specification words: top, bottom, left, right, then the
    diagonals; a collapsed pair is one entry with the top, respectively the
    right, labelling. *)
Definition moves_top_bottom_left_right : list PuzzleMove :=
  vertical_entries
  ++ (if w =? 2 then [right_entry] else [left_entry; right_entry])
  ++ diagonal_entries.

(** The same with the horizontal pair in the order right, left. *)
Definition moves_top_bottom_right_left : list PuzzleMove :=
  vertical_entries
  ++ (if w =? 2 then [right_entry] else [right_entry; left_entry])
  ++ diagonal_entries.

End Entries.

(** Grids used as concrete inputs. *)
Definition grid_3x3 : PuzzleInternalState := [[1; 2; 3]; [4; 0; 5]; [6; 7; 8]].
Definition grid_4x4 : PuzzleInternalState :=
  [[0; 1; 2; 3]; [4; 5; 6; 7]; [8; 9; 10; 11]; [12; 13; 14; 15]].
Definition grid_2x3 : PuzzleInternalState := [[0; 1]; [2; 3]; [4; 5]].
Definition grid_2x2 : PuzzleInternalState := [[0; 1]; [2; 3]].

(** The invariant of a state built by [from_state]: both sizes are at
    least 2 and the grid has the shape the dimensions say. *)
Definition well_formed (S : Puzzle.t) : Prop :=
  2 <= (Puzzle.get_dimensions S).1 /\
  2 <= (Puzzle.get_dimensions S).2 /\
  ndarray2 (Puzzle.get_internal_state S)
           (Puzzle.get_dimensions S).1 (Puzzle.get_dimensions S).2.

(** A coordinate inside a [w] by [h] grid. *)
Definition in_grid (w h : Z) (p : PuzzleTilePos) : Prop :=
  0 <= p.1 < w /\ 0 <= p.2 < h.

(** The cached coordinate of the empty cell lies inside the grid. *)
Definition empty_in_range (S : Puzzle.t) : Prop :=
  in_grid (Puzzle.get_dimensions S).1 (Puzzle.get_dimensions S).2
          (Puzzle.get_current_pos S).

(** The cell at coordinate [(x, y)] of a grid, and the cells of a grid
    after the values at [p1] and [p2] changed places. *)
Definition at_pos (a : PuzzleInternalState) (p : PuzzleTilePos) : option Z :=
  cell a (Z.to_nat p.2) (Z.to_nat p.1).

Definition swapped_cell (a : PuzzleInternalState) (p1 p2 : PuzzleTilePos)
    (r c : nat) : option Z :=
  if decide (r = Z.to_nat p2.2 /\ c = Z.to_nat p2.1) then at_pos a p1
  else if decide (r = Z.to_nat p1.2 /\ c = Z.to_nat p1.1) then at_pos a p2
  else cell a r c.

(** The move that undoes [m] on a [w] by [h] grid: the tile now sits where
    [m] moved it, and goes back by the opposite direction. *)
Definition opposite_move (w h : Z) (m : PuzzleMove) : PuzzleMove :=
  (m.1.1,
   ((m.1.2.1 + m.2.1) mod w, (m.1.2.2 + m.2.2) mod h),
   (- m.2.1, - m.2.2)).

(** The reversing move as the specification words it: same tile
    coordinate, negated direction. *)
Definition negated_move (m : PuzzleMove) : PuzzleMove :=
  (m.1.1, m.1.2, (- m.2.1, - m.2.2)).

(** The value of the [i]-th cell of a goal of [n] cells, counting from 0
    along the layout: 1, 2, ..., n-1, and the empty marker 0 last. *)
Definition goal_value (n i : Z) : Z := if i =? n - 1 then 0 else i + 1.

(** [np.append(lin[1:], lin[0])] for [lin = np.arange(n)]. *)
Definition goal_line (n : Z) : list Z := seqZ 1 (n - 1) ++ [0].

(** The invariant of the empty marker: the cell at the cached coordinate
    holds 0 and no other cell does. *)
Definition marker_at_cache (S : Puzzle.t) : Prop :=
  forall r c,
    cell (Puzzle.get_internal_state S) r c = Some 0 <->
    r = Z.to_nat (Puzzle.get_current_pos S).2 /\
    c = Z.to_nat (Puzzle.get_current_pos S).1.

(** Strings without a space, and the cut of a string at its first space:
    the part before it, and the part after it when there is one. *)
Fixpoint no_space (s : string) : bool :=
  match s with
  | EmptyString => true
  | String c s' => negb (Ascii.eqb c " "%char) && no_space s'
  end.

Fixpoint cut_at_space (s : string) : string * option string :=
  match s with
  | EmptyString => (EmptyString, None)
  | String c s' =>
      if Ascii.eqb c " "%char then (EmptyString, Some s')
      else (String c (cut_at_space s').1, (cut_at_space s').2)
  end.

(** The tiles of a move list. *)
Definition tiles_of (moves : list PuzzleMove) : list PuzzleTilePos :=
  (fun m : PuzzleMove => m.1.2) <$> moves.

(** * Properties *)

(** ** Proof steps *)

(** Case analysis on every test of the goal. *)
Ltac case_ifs :=
  repeat match goal with
         | |- context [if ?b then _ else _] => destruct b
         end.

(** [H : m ∈ [m1; ...; mn]]: one goal per element, each closed by [tac]. *)
Ltac elem_of_cases H tac :=
  repeat (apply elem_of_cons in H as [->|H]; [tac|]);
  apply elem_of_nil in H; contradiction.

(** ** The exception monad *)

Lemma bind_Ok {A B : Type} (m : result A) (k : A -> result B) (b : B) :
  m ≫= k = Ok b <-> exists a, m = Ok a /\ k a = Ok b.
Proof.
  destruct m as [a|e]; simpl; split.
  - intros H. exists a. split; [reflexivity | exact H].
  - intros (a' & Ha & Hk). congruence.
  - discriminate.
  - intros (a' & Ha & _). discriminate.
Qed.

Lemma bind_Ok_l {A B : Type} (m : result A) (k : A -> result B) (a : A) :
  m = Ok a -> m ≫= k = k a.
Proof. intros ->. reflexivity. Qed.

(** ** Arrays *)

Section Arrays.

Implicit Types (a b : PuzzleInternalState) (w h i j : Z) (r c : nat).

Lemma axis_index_in_range (n : nat) i :
  0 <= i < Z.of_nat n -> np.axis_index n i = Ok (Z.to_nat i).
Proof.
  intros Hi. unfold np.axis_index.
  destruct (0 <=? i) eqn:H0; [|lia].
  destruct (i <? Z.of_nat n) eqn:H1; [reflexivity|lia].
Qed.

Lemma ndarray2_row a w h r row :
  ndarray2 a w h -> a !! r = Some row -> Z.of_nat (length row) = w.
Proof.
  intros [_ Hrows] Hr.
  exact (Forall_lookup_1 _ _ _ _ Hrows Hr).
Qed.

Lemma ndarray2_lookup a w h i :
  ndarray2 a w h -> 0 <= i < h ->
  exists row, a !! Z.to_nat i = Some row /\ Z.of_nat (length row) = w.
Proof.
  intros Ha Hi.
  destruct (lookup_lt_is_Some_2 a (Z.to_nat i)) as [row Hrow].
  { destruct Ha as [Hlen _]. lia. }
  exists row. split; [exact Hrow|]. eapply ndarray2_row; eauto.
Qed.

Lemma cell_in_range a w h i j :
  ndarray2 a w h -> 0 <= i < h -> 0 <= j < w ->
  is_Some (cell a (Z.to_nat i) (Z.to_nat j)).
Proof.
  intros Ha Hi Hj.
  destruct (ndarray2_lookup a w h i Ha Hi) as (row & Hrow & Hlen).
  unfold cell. rewrite Hrow. simpl.
  apply lookup_lt_is_Some_2. lia.
Qed.

(** Reading inside the bounds returns the cell. *)
Lemma get_in_range a w h i j v :
  ndarray2 a w h -> 0 <= i < h -> 0 <= j < w ->
  cell a (Z.to_nat i) (Z.to_nat j) = Some v ->
  np.get a i j = Ok v.
Proof.
  intros Ha Hi Hj Hc.
  destruct (ndarray2_lookup a w h i Ha Hi) as (row & Hrow & Hlen).
  unfold np.get.
  rewrite (axis_index_in_range (length a) i) by (destruct Ha; lia).
  simpl. rewrite Hrow.
  rewrite (axis_index_in_range (length row) j) by lia.
  simpl. unfold cell in Hc. rewrite Hrow in Hc. simpl in Hc.
  rewrite Hc. reflexivity.
Qed.

(** Writing inside the bounds changes that cell and no other, and keeps
    the shape. *)
Lemma set_in_range a w h i j v :
  ndarray2 a w h -> 0 <= i < h -> 0 <= j < w ->
  exists a', np.set a i j v = Ok a' /\ ndarray2 a' w h /\
    forall r c, cell a' r c =
      if decide (r = Z.to_nat i /\ c = Z.to_nat j) then Some v else cell a r c.
Proof.
  intros Ha Hi Hj.
  destruct (ndarray2_lookup a w h i Ha Hi) as (row & Hrow & Hlen).
  exists (<[Z.to_nat i := <[Z.to_nat j := v]> row]> a).
  split; [|split].
  - unfold np.set.
    rewrite (axis_index_in_range (length a) i) by (destruct Ha; lia).
    simpl. rewrite Hrow.
    rewrite (axis_index_in_range (length row) j) by lia.
    reflexivity.
  - destruct Ha as [Hh Hrows]. split.
    + rewrite length_insert. exact Hh.
    + apply Forall_insert; [exact Hrows|].
      cbv beta. rewrite length_insert. exact Hlen.
  - intros r c. unfold cell.
    destruct (decide (r = Z.to_nat i)) as [->|Hr].
    + rewrite list_lookup_insert_eq by (apply lookup_lt_Some in Hrow; lia).
      simpl. destruct (decide (c = Z.to_nat j)) as [->|Hc].
      * rewrite list_lookup_insert_eq by lia.
        rewrite decide_True by auto. reflexivity.
      * rewrite list_lookup_insert_ne by auto.
        rewrite decide_False by (intros [_ ?]; auto).
        rewrite Hrow. reflexivity.
    + rewrite list_lookup_insert_ne by auto.
      rewrite decide_False by (intros [? _]; auto). reflexivity.
Qed.

(** Two arrays of one shape with the same cells are the same array. *)
Lemma ndarray2_ext a b w h :
  ndarray2 a w h -> ndarray2 b w h ->
  (forall r c, cell a r c = cell b r c) -> a = b.
Proof.
  intros Ha Hb Hcells. apply list_eq. intros r.
  destruct (a !! r) as [ra|] eqn:Hra.
  - destruct (lookup_lt_is_Some_2 b r) as [rb Hrb].
    { apply lookup_lt_Some in Hra. destruct Ha, Hb. lia. }
    rewrite Hrb. f_equal. apply list_eq. intros c.
    specialize (Hcells r c). unfold cell in Hcells.
    rewrite Hra, Hrb in Hcells. exact Hcells.
  - symmetry. apply lookup_ge_None. apply lookup_ge_None in Hra.
    destruct Ha, Hb. lia.
Qed.

Lemma row_equal_eq (r1 r2 : list Z) : np.row_equal r1 r2 = true <-> r1 = r2.
Proof.
  revert r2. induction r1 as [|v1 r1 IH]; intros [|v2 r2]; simpl;
    try (split; [discriminate|discriminate]); [tauto|].
  rewrite andb_true_iff, Z.eqb_eq, IH.
  split; [intros [-> ->]; reflexivity | intros [= -> ->]; auto].
Qed.

Lemma array_equal_eq a b : np.array_equal a b = true <-> a = b.
Proof.
  revert b. induction a as [|r1 a IH]; intros [|r2 b]; simpl;
    try (split; [discriminate|discriminate]); [tauto|].
  rewrite andb_true_iff, row_equal_eq, IH.
  split; [intros [-> ->]; reflexivity | intros [= -> ->]; auto].
Qed.

End Arrays.

(** ** Locating a tile *)

Section Locate.

Implicit Types (state : PuzzleInternalState) (row : list Z) (tile x y : Z).

Lemma locate_in_row_spec row tile x0 :
  match Puzzle.locate_in_row row tile x0 with
  | Some x => exists c : nat, x = x0 + Z.of_nat c /\ row !! c = Some tile /\
                forall c', (c' < c)%nat -> row !! c' <> Some tile
  | None => forall c : nat, row !! c <> Some tile
  end.
Proof.
  revert x0. induction row as [|t row IH]; intros x0; simpl.
  - intros c. rewrite lookup_nil. discriminate.
  - destruct (t =? tile) eqn:Ht.
    + apply Z.eqb_eq in Ht. subst t. exists 0%nat.
      split; [lia|]. split; [reflexivity|]. intros c' Hc'. lia.
    + apply Z.eqb_neq in Ht. specialize (IH (x0 + 1)).
      destruct (Puzzle.locate_in_row row tile (x0 + 1)) as [x|].
      * destruct IH as (c & -> & Hc & Hbefore). exists (S c).
        split; [lia|]. split; [exact Hc|].
        intros [|c'] Hc'; simpl; [congruence|]. apply Hbefore. lia.
      * intros [|c]; simpl; [congruence|]. apply IH.
Qed.

Lemma locate_from_spec state tile y0 :
  match Puzzle.locate_from state tile y0 with
  | Ok (x, y) => exists r c : nat,
      y = y0 + Z.of_nat r /\ x = Z.of_nat c /\ first_match state tile r c
  | Raise e => e = TileNotFound /\ forall r c, cell state r c <> Some tile
  end.
Proof.
  revert y0. induction state as [|row state IH]; intros y0; simpl.
  - split; [reflexivity|]. intros r c. unfold cell.
    rewrite lookup_nil. discriminate.
  - pose proof (locate_in_row_spec row tile 0) as Hrow.
    destruct (Puzzle.locate_in_row row tile 0) as [x|].
    + destruct Hrow as (c & -> & Hc & Hbefore). exists 0%nat, c.
      split; [lia|]. split; [lia|]. split; [exact Hc|].
      intros r' c' [Hr|[-> Hc']]; [lia|]. simpl. apply Hbefore, Hc'.
    + specialize (IH (y0 + 1)).
      destruct (Puzzle.locate_from state tile (y0 + 1)) as [[x y]|e].
      * destruct IH as (r & c & -> & -> & Hc & Hbefore). exists (S r), c.
        split; [lia|]. split; [reflexivity|]. split; [exact Hc|].
        intros [|r'] c' Hlt; [apply Hrow|]. apply Hbefore. lia.
      * destruct IH as [-> Hnone]. split; [reflexivity|].
        intros [|r] c; [apply Hrow | apply Hnone].
Qed.

Lemma first_match_unique state tile r c r' c' :
  first_match state tile r c -> first_match state tile r' c' ->
  r = r' /\ c = c'.
Proof.
  intros [H1 B1] [H2 B2].
  destruct (lt_eq_lt_dec r r') as [[Hlt|Heq]|Hgt].
  - exfalso. apply (B2 r c); auto.
  - subst r'. split; [reflexivity|].
    destruct (lt_eq_lt_dec c c') as [[Hlt|Heq]|Hgt]; [|exact Heq|].
    + exfalso. apply (B2 r c); auto.
    + exfalso. apply (B1 r c'); auto.
  - exfalso. apply (B1 r' c'); auto.
Qed.

Lemma locate_tile_Ok state tile x y :
  Puzzle.locate_tile state tile = Ok (x, y) <->
  0 <= x /\ 0 <= y /\ first_match state tile (Z.to_nat y) (Z.to_nat x).
Proof.
  unfold Puzzle.locate_tile.
  pose proof (locate_from_spec state tile 0) as Hspec.
  destruct (Puzzle.locate_from state tile 0) as [[x1 y1]|e].
  - destruct Hspec as (r & c & -> & -> & Hfirst). split.
    + intros [= <- <-]. rewrite !Z.add_0_l, !Nat2Z.id.
      split; [lia|]. split; [lia|]. exact Hfirst.
    + intros (Hx & Hy & Hxy).
      destruct (first_match_unique _ _ _ _ _ _ Hfirst Hxy) as [-> ->].
      f_equal. f_equal; lia.
  - destruct Hspec as [-> Hnone]. split; [discriminate|].
    intros (_ & _ & Hc & _). exfalso. exact (Hnone _ _ Hc).
Qed.

Lemma locate_tile_Raise state tile e :
  Puzzle.locate_tile state tile = Raise e <->
  e = TileNotFound /\ forall r c, cell state r c <> Some tile.
Proof.
  unfold Puzzle.locate_tile.
  pose proof (locate_from_spec state tile 0) as Hspec.
  destruct (Puzzle.locate_from state tile 0) as [[x1 y1]|e1].
  - destruct Hspec as (r & c & _ & _ & Hc & _). split; [discriminate|].
    intros [_ Hnone]. exfalso. exact (Hnone _ _ Hc).
  - destruct Hspec as [-> Hnone]. split.
    + intros [= <-]. auto.
    + intros [-> _]. reflexivity.
Qed.

End Locate.

(** C7. Constructing a state raises the invalid-configuration error
    ([ValueError]) exactly when the width or the height is below 2, and
    succeeds otherwise.  [locate_tile] raises the not-found error exactly
    when no cell of the grid holds the value; otherwise it returns the
    coordinate [(x, y)] of the first cell holding it in row-major order
    (rows from the top, each row from the left). *)
Theorem init_and_locate_failures :
  (forall grid dimension pos,
     (Puzzle.__init__ grid dimension pos = Raise ValueError <->
        dimension.1 < 2 \/ dimension.2 < 2) /\
     (Puzzle.__init__ grid dimension pos = Ok (Puzzle.mk dimension grid pos) <->
        ~ (dimension.1 < 2 \/ dimension.2 < 2))) /\
  (forall state tile,
     (Puzzle.locate_tile state tile = Raise TileNotFound <->
        forall r c, cell state r c <> Some tile) /\
     (forall e, Puzzle.locate_tile state tile = Raise e -> e = TileNotFound) /\
     (forall x y,
        Puzzle.locate_tile state tile = Ok (x, y) <->
        0 <= x /\ 0 <= y /\
        first_match state tile (Z.to_nat y) (Z.to_nat x))).
Proof.
  split.
  - intros grid [w h] pos. unfold Puzzle.__init__. simpl.
    destruct (w <? 2) eqn:Hw; destruct (h <? 2) eqn:Hh; simpl;
      (split; split; first [discriminate | reflexivity | lia | idtac]);
      intros H; exfalso; lia.
  - intros state tile. split; [|split].
    + rewrite locate_tile_Raise. split; [tauto | auto].
    + intros e He. apply locate_tile_Raise in He. tauto.
    + intros x y. apply locate_tile_Ok.
Qed.

(** ** The move list *)

Section Moves.

Implicit Types (w h x y : Z) (m : PuzzleMove).

Lemma foldl_snoc_fmap {A B : Type} (f : A -> B) (l : list A) (acc : list B) :
  foldl (fun acc t => acc ++ [f t]) acc l = acc ++ (f <$> l).
Proof.
  revert acc. induction l as [|t l IH]; intros acc; simpl.
  - rewrite app_nil_r. reflexivity.
  - rewrite IH, <- app_assoc. reflexivity.
Qed.

(** The two loops of [get_moves] as two maps. *)
Lemma get_moves_unfold grid w h x y :
  Puzzle.get_moves (Puzzle.mk (w, h) grid (x, y)) =
  ((fun t => lateral_entry w h x y t.1 t.2) <$> Puzzle.laterals_of w h x y)
  ++ ((fun t => (3, t.1, t.2)) <$> Puzzle.diagonals_of w h x y).
Proof.
  unfold Puzzle.get_moves. simpl.
  rewrite !foldl_snoc_fmap. reflexivity.
Qed.

(** On an axis of size [n >= 2] the two neighbours of a coordinate
    coincide exactly when [n = 2]. *)
Lemma neighbours_coincide n k :
  2 <= n -> ((k - 1) mod n =? (k + 1) mod n) = (n =? 2).
Proof.
  intros Hn. destruct (Z.eqb_spec n 2) as [->|Hne].
  - replace (k + 1) with (k - 1 + 1 * 2) by lia.
    rewrite Z.mod_add by lia. apply Z.eqb_refl.
  - apply Z.eqb_neq. intros Heq.
    apply Z.cong_iff_0 in Heq.
    replace (k - 1 - (k + 1)) with (-2) in Heq by lia.
    assert (Hm : (-2) mod n = n - 2).
    { symmetry. apply (Z.mod_unique (-2) n (-1)); lia. }
    lia.
Qed.

Lemma neighbours_coincide' n k :
  2 <= n -> ((k + 1) mod n =? (k - 1) mod n) = (n =? 2).
Proof. intros Hn. rewrite Z.eqb_sym. apply neighbours_coincide, Hn. Qed.

Lemma laterals_of_closed w h x y :
  2 <= w -> 2 <= h ->
  Puzzle.laterals_of w h x y =
  (if h =? 2 then [((x, (y - 1) mod h), (0, -1))]
   else [((x, (y - 1) mod h), (0, -1)); ((x, (y + 1) mod h), (0, 1))])
  ++ (if w =? 2 then [(((x + 1) mod w, y), (-1, 0))]
      else [(((x + 1) mod w, y), (-1, 0)); (((x - 1) mod w, y), (1, 0))]).
Proof.
  intros Hw Hh. unfold Puzzle.laterals_of, pos_eqb. simpl.
  rewrite !Z.eqb_refl, andb_true_l, andb_true_r.
  rewrite (neighbours_coincide h y Hh), (neighbours_coincide' w x Hw).
  destruct (h =? 2), (w =? 2); reflexivity.
Qed.

Lemma diagonals_of_closed w h x y :
  2 <= w -> 2 <= h ->
  (fun t => (3, t.1, t.2)) <$> Puzzle.diagonals_of w h x y =
  diagonal_entries w h x y.
Proof.
  intros Hw Hh. unfold Puzzle.diagonals_of, diagonal_entries, pos_eqb. simpl.
  destruct (Z.eqb_spec h 2), (Z.eqb_spec w 2); simpl; try reflexivity;
    destruct (Z.eqb_spec x 0), (Z.eqb_spec y 0),
             (Z.eqb_spec x (w - 1)), (Z.eqb_spec y (h - 1));
    simpl; first [reflexivity | lia].
Qed.

(** The move list in closed form. *)
Lemma get_moves_closed grid w h x y :
  2 <= w -> 2 <= h ->
  Puzzle.get_moves (Puzzle.mk (w, h) grid (x, y)) =
  moves_top_bottom_right_left w h x y.
Proof.
  intros Hw Hh. rewrite get_moves_unfold.
  rewrite laterals_of_closed, diagonals_of_closed by assumption.
  unfold moves_top_bottom_right_left, vertical_entries.
  rewrite fmap_app, <- app_assoc.
  destruct (h =? 2), (w =? 2); reflexivity.
Qed.

Lemma init_Ok grid dimension pos S :
  Puzzle.__init__ grid dimension pos = Ok S ->
  S = Puzzle.mk dimension grid pos /\ 2 <= dimension.1 /\ 2 <= dimension.2.
Proof.
  unfold Puzzle.__init__.
  destruct (dimension.1 <? 2) eqn:Hw; destruct (dimension.2 <? 2) eqn:Hh;
    simpl; try discriminate.
  intros [= <-]. split; [reflexivity | lia].
Qed.

(** [__init__] either raises [ValueError], on a size below 2, or returns
    the state. *)
Lemma init_Ok_or_ValueError grid dimension pos :
  ((dimension.1 < 2 \/ dimension.2 < 2) /\
   Puzzle.__init__ grid dimension pos = Raise ValueError) \/
  ((2 <= dimension.1 /\ 2 <= dimension.2) /\
   Puzzle.__init__ grid dimension pos = Ok (Puzzle.mk dimension grid pos)).
Proof.
  unfold Puzzle.__init__.
  destruct (Z.ltb_spec dimension.1 2); destruct (Z.ltb_spec dimension.2 2);
    simpl; first [left; split; [lia | reflexivity]
                 | right; split; [lia | reflexivity]].
Qed.

End Moves.

(** ** Costs of the lateral moves *)

Lemma cost_spec w h x y tile :
  (crosses_seam w h (x, y) tile -> Puzzle.cost w h x y tile = 2) /\
  (~ crosses_seam w h (x, y) tile -> Puzzle.cost w h x y tile = 1).
Proof.
  unfold crosses_seam, Puzzle.cost. destruct tile as [tx ty]. simpl.
  destruct (Z.gtb_spec w 2), (Z.gtb_spec h 2),
           (Z.eqb_spec tx 0), (Z.eqb_spec x (w - 1)),
           (Z.eqb_spec tx (w - 1)), (Z.eqb_spec x 0),
           (Z.eqb_spec ty 0), (Z.eqb_spec y (h - 1)),
           (Z.eqb_spec ty (h - 1)), (Z.eqb_spec y 0);
    simpl; split; intros Hc; first [reflexivity | exfalso; lia].
Qed.

Lemma diagonals_of_dir w h x y t :
  t ∈ Puzzle.diagonals_of w h x y -> is_diagonal (3, t.1, t.2) = true.
Proof.
  unfold Puzzle.diagonals_of.
  destruct (negb _); [|intros H; apply elem_of_nil in H; contradiction].
  destruct (_ || _); destruct (_ || _); simpl; intros H;
    elem_of_cases H ltac:(reflexivity).
Qed.

Lemma laterals_of_dir w h x y t :
  t ∈ Puzzle.laterals_of w h x y ->
  is_lateral (lateral_entry w h x y t.1 t.2) = true.
Proof.
  unfold Puzzle.laterals_of.
  destruct (pos_eqb _ _); destruct (pos_eqb _ _); simpl; intros H;
    elem_of_cases H ltac:(reflexivity).
Qed.

Lemma lateral_diagonal_exclusive m : is_lateral m = true -> is_diagonal m = false.
Proof.
  destruct m as [[c tile] [dx dy]].
  unfold is_lateral, is_vertical, is_horizontal, is_diagonal. simpl.
  destruct (dx =? 0), (dy =? 0); simpl; congruence.
Qed.

(** A lateral move of the list carries the cost of its tile. *)
Lemma lateral_move_cost S m :
  m ∈ Puzzle.get_moves S -> is_lateral m = true ->
  m.1.1 = Puzzle.cost (Puzzle.get_dimensions S).1 (Puzzle.get_dimensions S).2
            (Puzzle.get_current_pos S).1 (Puzzle.get_current_pos S).2 m.1.2.
Proof.
  destruct S as [[w h] grid [x y]]. rewrite get_moves_unfold. simpl.
  intros Hin Hlat. apply elem_of_app in Hin as [Hin|Hin];
    apply list_elem_of_fmap in Hin as (t & -> & Ht).
  - reflexivity.
  - apply diagonals_of_dir in Ht.
    apply lateral_diagonal_exclusive in Hlat. congruence.
Qed.

(** C3. A lateral move of the list costs 2 exactly when it crosses a seam
    of the torus on an axis of size above 2 (the tile's x is 0 and the empty
    cell's x is width-1 or the other way round, with width > 2; or the same
    on y, with height > 2), and costs 1 otherwise.  On a 4 by 4 grid with
    the empty cell at (0,0) the left neighbour (3,0) and the top neighbour
    (0,3) are in the list with cost 2. *)
Theorem lateral_cost_rule :
  (forall S m,
     m ∈ Puzzle.get_moves S -> is_lateral m = true ->
     let dim := Puzzle.get_dimensions S in
     let empty := Puzzle.get_current_pos S in
     (crosses_seam dim.1 dim.2 empty m.1.2 -> m.1.1 = 2) /\
     (~ crosses_seam dim.1 dim.2 empty m.1.2 -> m.1.1 = 1)) /\
  (forall grid,
     left_entry 4 4 0 0 = (2, (3, 0), (1, 0)) /\
     top_entry 4 4 0 0 = (2, (0, 3), (0, -1)) /\
     left_entry 4 4 0 0 ∈ Puzzle.get_moves (Puzzle.mk (4, 4) grid (0, 0)) /\
     top_entry 4 4 0 0 ∈ Puzzle.get_moves (Puzzle.mk (4, 4) grid (0, 0))).
Proof.
  split.
  - intros S m Hin Hlat. cbv zeta.
    rewrite (lateral_move_cost S m Hin Hlat).
    destruct (Puzzle.get_current_pos S) as [x y].
    cbn [fst snd]. apply cost_spec.
  - intros grid. rewrite get_moves_closed by lia.
    split; [reflexivity|]. split; [reflexivity|].
    split; vm_compute; repeat constructor.
Qed.

(** ** Shape of the move list *)

Section MoveKinds.

Variables w h x y : Z.

Lemma filter_diagonal_closed :
  List.filter is_diagonal (moves_top_bottom_right_left w h x y) =
  diagonal_entries w h x y.
Proof.
  unfold moves_top_bottom_right_left, vertical_entries, diagonal_entries.
  rewrite !List.filter_app.
  destruct (h =? 2), (w =? 2); simpl; case_ifs; reflexivity.
Qed.

Lemma filter_vertical_closed :
  List.filter is_vertical (moves_top_bottom_right_left w h x y) =
  vertical_entries w h x y.
Proof.
  unfold moves_top_bottom_right_left, vertical_entries, diagonal_entries.
  rewrite !List.filter_app.
  destruct (h =? 2), (w =? 2); simpl; case_ifs; reflexivity.
Qed.

Lemma filter_horizontal_closed :
  List.filter is_horizontal (moves_top_bottom_right_left w h x y) =
  if w =? 2 then [right_entry w h x y]
  else [right_entry w h x y; left_entry w h x y].
Proof.
  unfold moves_top_bottom_right_left, vertical_entries, diagonal_entries.
  rewrite !List.filter_app.
  destruct (h =? 2), (w =? 2); simpl; case_ifs; reflexivity.
Qed.

End MoveKinds.

(** C4. In a state whose grid is not 2 by 2 and whose empty cell is at one
    of the four corners, the move list holds exactly two diagonal moves,
    each of cost 3 (and their tiles are two different cells); with the
    empty cell off the corners, and in every 2 by 2 state, it holds no
    diagonal move. *)
Theorem diagonal_moves_at_corners grid w h x y S :
  Puzzle.__init__ grid (w, h) (x, y) = Ok S ->
  let diagonal := List.filter is_diagonal (Puzzle.get_moves S) in
  ((w, h) <> (2, 2) -> is_corner w h (x, y) = true ->
     length diagonal = 2%nat /\
     (forall m, m ∈ diagonal -> m.1.1 = 3) /\
     NoDup ((fun m : PuzzleMove => m.1.2) <$> diagonal)) /\
  (is_corner w h (x, y) = false -> diagonal = []) /\
  ((w, h) = (2, 2) -> diagonal = []).
Proof.
  intros Hinit. apply init_Ok in Hinit as (-> & Hw & Hh). simpl in Hw, Hh.
  cbv zeta. rewrite get_moves_closed by assumption.
  rewrite filter_diagonal_closed.
  unfold diagonal_entries, is_corner, pos_eqb. simpl.
  split; [|split].
  - intros Hne Hcorner.
    assert (Hsz : (w =? 2) && (h =? 2) = false).
    { destruct (Z.eqb_spec w 2), (Z.eqb_spec h 2); simpl; congruence. }
    rewrite Hsz.
    assert (Hx : (x - 1) mod w <> (x + 1) mod w \/
                 (y - 1) mod h <> (y + 1) mod h).
    { pose proof (neighbours_coincide w x Hw) as Ex.
      pose proof (neighbours_coincide h y Hh) as Ey.
      destruct (Z.eqb_spec w 2), (Z.eqb_spec h 2); simpl in Hsz;
        try discriminate;
        [right; apply Z.eqb_neq, Ey | left; apply Z.eqb_neq, Ex
        | left; apply Z.eqb_neq, Ex]. }
    assert (Hy : (x - 1) mod w <> (x + 1) mod w \/
                 (y + 1) mod h <> (y - 1) mod h) by (destruct Hx; auto).
    destruct ((x =? 0) && (y =? 0) || (x =? w - 1) && (y =? h - 1)) eqn:H1;
      [|destruct ((x =? w - 1) && (y =? 0) || (x =? 0) && (y =? h - 1)) eqn:H2].
    + split; [reflexivity|]. split.
      * intros m Hm. elem_of_cases Hm ltac:(reflexivity).
      * simpl. repeat constructor.
        -- rewrite list_elem_of_singleton. intros [= E1 E2]. destruct Hx; auto.
        -- apply not_elem_of_nil.
    + split; [reflexivity|]. split.
      * intros m Hm. elem_of_cases Hm ltac:(reflexivity).
      * simpl. repeat constructor.
        -- rewrite list_elem_of_singleton. intros [= E1 E2]. destruct Hy; auto.
        -- apply not_elem_of_nil.
    + exfalso. revert Hcorner H1 H2.
      destruct (x =? 0), (y =? 0), (x =? w - 1), (y =? h - 1); simpl; congruence.
  - intros Hcorner.
    destruct ((w =? 2) && (h =? 2)); [reflexivity|]. revert Hcorner.
    destruct (x =? 0), (y =? 0), (x =? w - 1), (y =? h - 1); simpl;
      first [reflexivity | discriminate].
  - intros [= -> ->]. reflexivity.
Qed.

Lemma diagonal_moves_at_corners_witness :
  Puzzle.__init__ grid_4x4 (4, 4) (0, 0) = Ok (Puzzle.mk (4, 4) grid_4x4 (0, 0)) /\
  length (List.filter is_diagonal
            (Puzzle.get_moves (Puzzle.mk (4, 4) grid_4x4 (0, 0)))) = 2%nat.
Proof.
  split; [reflexivity|].
  apply (diagonal_moves_at_corners grid_4x4 4 4 0 0 _ eq_refl);
    [intros [= ?] | reflexivity].
Defined.

(** C5. In a state of height 2 the move list holds exactly one vertical
    entry: the top and the bottom neighbour are one cell, listed once with
    the top direction (0,-1).  In a state of width 2 it holds exactly one
    horizontal entry, with the right direction (-1,0).  On a 2 by 3 grid
    (width 2, height 3) with the empty cell at (0,0) there is one horizontal
    entry and there are two vertical entries, on different cells. *)
Theorem degenerate_axis_collapse grid w h x y S :
  Puzzle.__init__ grid (w, h) (x, y) = Ok S ->
  (h = 2 ->
     List.filter is_vertical (Puzzle.get_moves S) = [top_entry w h x y] /\
     (top_entry w h x y).1.2 = (bottom_entry w h x y).1.2 /\
     (top_entry w h x y).2 = (0, -1)) /\
  (w = 2 ->
     List.filter is_horizontal (Puzzle.get_moves S) = [right_entry w h x y] /\
     (right_entry w h x y).1.2 = (left_entry w h x y).1.2 /\
     (right_entry w h x y).2 = (-1, 0)) /\
  (forall grid',
     let moves := Puzzle.get_moves (Puzzle.mk (2, 3) grid' (0, 0)) in
     List.filter is_horizontal moves = [(1, (1, 0), (-1, 0))] /\
     List.filter is_vertical moves = [(2, (0, 2), (0, -1)); (1, (0, 1), (0, 1))]).
Proof.
  intros Hinit. apply init_Ok in Hinit as (-> & Hw & Hh). simpl in Hw, Hh.
  rewrite get_moves_closed by assumption.
  rewrite filter_vertical_closed, filter_horizontal_closed.
  split; [|split].
  - intros ->. split; [reflexivity|]. split; [|reflexivity].
    simpl. f_equal. apply Z.eqb_eq. rewrite neighbours_coincide; [reflexivity|lia].
  - intros ->. split; [reflexivity|]. split; [|reflexivity].
    simpl. f_equal. apply Z.eqb_eq. rewrite neighbours_coincide'; [reflexivity|lia].
  - intros grid'. cbv zeta. rewrite get_moves_closed by lia.
    rewrite filter_vertical_closed, filter_horizontal_closed.
    split; reflexivity.
Qed.

Lemma degenerate_axis_collapse_witness :
  Puzzle.__init__ grid_2x2 (2, 2) (0, 0) = Ok (Puzzle.mk (2, 2) grid_2x2 (0, 0)) /\
  List.filter is_vertical (Puzzle.get_moves (Puzzle.mk (2, 2) grid_2x2 (0, 0)))
  = [top_entry 2 2 0 0].
Proof.
  split; [reflexivity|].
  apply (degenerate_axis_collapse grid_2x2 2 2 0 0 _ eq_refl). reflexivity.
Defined.

(** C6, as the code has it.  The move list is: the top entry, the bottom
    entry (unless the height is 2), the right entry, the left entry (unless
    the width is 2), then the two diagonal entries when the grid is not
    2 by 2 and the empty cell is at a corner. *)
Theorem get_moves_order grid w h x y S :
  Puzzle.__init__ grid (w, h) (x, y) = Ok S ->
  Puzzle.get_moves S = moves_top_bottom_right_left w h x y.
Proof.
  intros Hinit. apply init_Ok in Hinit as (-> & Hw & Hh).
  apply get_moves_closed; assumption.
Qed.

Lemma get_moves_order_witness :
  Puzzle.__init__ grid_3x3 (3, 3) (1, 1) = Ok (Puzzle.mk (3, 3) grid_3x3 (1, 1)) /\
  Puzzle.get_moves (Puzzle.mk (3, 3) grid_3x3 (1, 1)) =
  moves_top_bottom_right_left 3 3 1 1.
Proof.
  split; [reflexivity|].
  apply (get_moves_order grid_3x3 3 3 1 1 _ eq_refl).
Defined.

(** C6, as the specification words it (left before right), fails: in the
    3 by 3 state with the empty cell in the middle the third entry is the
    right neighbour (2,1), where the worded order has the left one (0,1). *)
Lemma get_moves_order_left_right_fails :
  exists S,
    Puzzle.from_state grid_3x3 None = Ok S /\
    Puzzle.get_moves S <> moves_top_bottom_left_right 3 3 1 1 /\
    Puzzle.get_moves S !! 2%nat = Some (1, (2, 1), (-1, 0)) /\
    moves_top_bottom_left_right 3 3 1 1 !! 2%nat = Some (1, (0, 1), (1, 0)).
Proof.
  eexists. split; [reflexivity|].
  split; [|split; reflexivity].
  intros H. apply (f_equal (fun l => l !! 2%nat)) in H. discriminate H.
Qed.

(** ** Inequality *)

(** C10. For all states [p] and [q], [p != q] raises [NameError]: the
    body of [__ne__] calls [__eq__] as a free name, which neither the
    module nor the builtins bind, whatever a bound global would do when
    called.  It does not return the negation of [p == q]. *)
Theorem ne_raises_name_error (call_global : string -> Puzzle.PyObject -> result bool)
    (p q : Puzzle.t) :
  resolve_free_dunder "__eq__" = false /\
  Puzzle.__ne__ call_global p (Puzzle.PuzzleObject q) = Raise NameError /\
  Puzzle.__ne__ call_global p (Puzzle.PuzzleObject q) <>
    Ok (negb (Puzzle.__eq__ p (Puzzle.PuzzleObject q))).
Proof.
  split; [reflexivity|]. split; [reflexivity|]. discriminate.
Qed.

(** ** Equality and hash *)

Section Equality.

Implicit Types (p q : Puzzle.t) (g : PuzzleInternalState).

Lemma eq_iff_grid p q :
  Puzzle.__eq__ p (Puzzle.PuzzleObject q) = true <->
  Puzzle.__grid p = Puzzle.__grid q.
Proof. apply array_equal_eq. Qed.

Lemma ndarray2_shape g w h :
  ndarray2 g w h -> 0 < h -> np.shape1 g = w /\ np.shape0 g = h.
Proof.
  intros [Hh Hrows] Hpos. unfold np.shape1, np.shape0.
  split; [|exact Hh].
  destruct g as [|row g]; simpl in *; [lia|].
  apply Forall_cons in Hrows as [Hrow _]. exact Hrow.
Qed.

(** Reading a cell inside the bounds of a well-formed state. *)
Lemma getitem_in_range p x y :
  well_formed p ->
  0 <= x < (Puzzle.get_dimensions p).1 ->
  0 <= y < (Puzzle.get_dimensions p).2 ->
  exists v, cell (Puzzle.__grid p) (Z.to_nat y) (Z.to_nat x) = Some v /\
            Puzzle.__getitem__ p (x, y) = Ok v.
Proof.
  intros (_ & _ & Hg) Hx Hy.
  destruct (cell_in_range _ _ _ y x Hg Hy Hx) as [v Hv].
  exists v. split; [exact Hv|].
  unfold Puzzle.__getitem__. simpl.
  eapply get_in_range; eauto.
Qed.

Lemma cell_outside g w h r c :
  ndarray2 g w h -> ~ (Z.of_nat r < h /\ Z.of_nat c < w) -> cell g r c = None.
Proof.
  intros Hg Hout. unfold cell.
  destruct (g !! r) as [row|] eqn:Hrow; [|reflexivity]. simpl.
  apply lookup_ge_None.
  pose proof (ndarray2_row _ _ _ _ _ Hg Hrow) as Hlen.
  apply lookup_lt_Some in Hrow. destruct Hg as [Hh _]. lia.
Qed.

(** Well-formed states with the same dimensions and the same cells have
    the same grid. *)
Lemma grid_ext p q :
  well_formed p -> well_formed q ->
  Puzzle.get_dimensions p = Puzzle.get_dimensions q ->
  (forall x y,
     0 <= x < (Puzzle.get_dimensions p).1 ->
     0 <= y < (Puzzle.get_dimensions p).2 ->
     Puzzle.__getitem__ p (x, y) = Puzzle.__getitem__ q (x, y)) ->
  Puzzle.__grid p = Puzzle.__grid q.
Proof.
  intros Hp Hq Hdim Hcells.
  pose proof Hp as (_ & _ & Hgp). pose proof Hq as (_ & _ & Hgq).
  rewrite <- Hdim in Hgq.
  apply (ndarray2_ext _ _ _ _ Hgp Hgq). intros r c.
  destruct (decide (Z.of_nat r < (Puzzle.get_dimensions p).2 /\
                    Z.of_nat c < (Puzzle.get_dimensions p).1)) as [[Hr Hc]|Hout].
  - specialize (Hcells (Z.of_nat c) (Z.of_nat r) ltac:(lia) ltac:(lia)).
    destruct (getitem_in_range p (Z.of_nat c) (Z.of_nat r) Hp) as (v & Hv & Ev);
      [lia | lia |].
    destruct (getitem_in_range q (Z.of_nat c) (Z.of_nat r) Hq) as (v' & Hv' & Ev');
      [rewrite <- Hdim; lia | rewrite <- Hdim; lia |].
    rewrite !Nat2Z.id in Hv, Hv'.
    unfold Puzzle.get_internal_state in *. rewrite Hv, Hv'. congruence.
  - unfold Puzzle.get_internal_state in *.
    rewrite (cell_outside _ _ _ _ _ Hgp Hout), (cell_outside _ _ _ _ _ Hgq Hout).
    reflexivity.
Qed.

Lemma length_concat_rows g w h :
  ndarray2 g w h -> Z.of_nat (length (concat g)) = h * w.
Proof.
  intros [Hh Hrows]. subst h.
  induction Hrows as [|row g Hrow Hrows IH]; simpl; [reflexivity|].
  rewrite length_app. lia.
Qed.

(** Reshaping the row-major listing of an array gives the array back. *)
Lemma rows_of_concat g (c : nat) :
  Forall (fun row => length row = c) g ->
  np.rows_of c (length g) (concat g) = g.
Proof.
  induction 1 as [|row g Hrow Hrows IH]; simpl; [reflexivity|].
  rewrite take_app_length' by auto.
  rewrite drop_app_length' by auto.
  rewrite IH. reflexivity.
Qed.

Lemma reshape_concat g w h :
  ndarray2 g w h -> 0 <= w -> np.reshape (concat g) h w = Ok g.
Proof.
  intros Hg Hw. pose proof (length_concat_rows g w h Hg) as Hlen.
  destruct Hg as [Hh Hrows].
  unfold np.reshape.
  destruct (Z.eqb_spec h (-1)); [lia|].
  destruct (Z.eqb_spec w (-1)); [lia|]. simpl.
  destruct (Z.leb_spec 0 h); [|lia].
  destruct (Z.leb_spec 0 w); [|lia].
  destruct (Z.eqb_spec (h * w) (Z.of_nat (length (concat g)))); [|lia].
  simpl. f_equal. rewrite <- Hh, Nat2Z.id.
  apply rows_of_concat.
  eapply Forall_impl; [exact Hrows|]. simpl. intros row Hrow. lia.
Qed.

Lemma from_state_well_formed g w h tile_pos S :
  ndarray2 g w h -> Puzzle.from_state g tile_pos = Ok S ->
  well_formed S /\ Puzzle.__grid S = g /\ Puzzle.__dimensions S = (w, h).
Proof.
  intros Hg Hfrom. unfold Puzzle.from_state in Hfrom.
  apply bind_Ok in Hfrom as (pos & _ & Hinit).
  apply init_Ok in Hinit as (-> & Hw & Hh). simpl in Hw, Hh.
  destruct (ndarray2_shape g w h Hg) as [E1 E0].
  { destruct Hg as [<- _]. unfold np.shape0 in Hh. lia. }
  rewrite E1, E0 in *.
  split; [|split; reflexivity].
  unfold well_formed. simpl. auto.
Qed.

End Equality.


(** ** Applying a move *)

Section ComputeMove.

Implicit Types (S : Puzzle.t) (a : PuzzleInternalState) (p : PuzzleTilePos).

Lemma swap_in_range S w h p1 p2 :
  ndarray2 (Puzzle.__grid S) w h -> in_grid w h p1 -> in_grid w h p2 ->
  exists a',
    Puzzle.swap S p1 p2
      = Ok (Puzzle.mk (Puzzle.__dimensions S) a' (Puzzle.__tile_pos S)) /\
    ndarray2 a' w h /\
    forall r c, cell a' r c = swapped_cell (Puzzle.__grid S) p1 p2 r c.
Proof.
  intros Ha [Hx1 Hy1] [Hx2 Hy2].
  destruct (cell_in_range _ _ _ _ _ Ha Hy1 Hx1) as [v1 Hv1].
  destruct (cell_in_range _ _ _ _ _ Ha Hy2 Hx2) as [v2 Hv2].
  destruct (set_in_range _ _ _ p1.2 p1.1 v2 Ha Hy1 Hx1) as (a1 & Hset1 & Ha1 & Hc1).
  destruct (set_in_range _ _ _ p2.2 p2.1 v1 Ha1 Hy2 Hx2) as (a2 & Hset2 & Ha2 & Hc2).
  exists a2. split; [|split; [exact Ha2|]].
  - unfold Puzzle.swap, Puzzle.__getitem__, Puzzle.__setitem__.
    rewrite (get_in_range _ _ _ _ _ _ Ha Hy2 Hx2 Hv2). simpl.
    rewrite (get_in_range _ _ _ _ _ _ Ha Hy1 Hx1 Hv1). simpl.
    rewrite Hset1. simpl. rewrite Hset2. reflexivity.
  - intros r c. rewrite Hc2, Hc1. unfold swapped_cell, at_pos.
    rewrite Hv1, Hv2. reflexivity.
Qed.

(** Changing two values back and forth restores every cell. *)
Lemma swapped_cell_involutive a a' p1 p2 r c :
  (forall r c, cell a' r c = swapped_cell a p1 p2 r c) ->
  swapped_cell a' p2 p1 r c = cell a r c.
Proof.
  intros Ha'. unfold swapped_cell, at_pos. rewrite !Ha'.
  unfold swapped_cell, at_pos.
  repeat case_decide; try reflexivity;
    repeat match goal with
           | H : _ /\ _ |- _ => destruct H
           end; subst; first [reflexivity | congruence | exfalso; intuition congruence].
Qed.

Lemma mod_in_range k n : 2 <= n -> 0 <= k mod n < n.
Proof. intros Hn. apply Z.mod_pos_bound. lia. Qed.

Lemma mod_back k d n : 2 <= n -> 0 <= k < n -> ((k + d) mod n + - d) mod n = k.
Proof.
  intros Hn Hk. rewrite Z.add_mod_idemp_l by lia.
  replace (k + d + - d) with k by lia. apply Z.mod_small, Hk.
Qed.

Lemma compute_move_unfold (self : Puzzle.t) S c tile dir :
  Puzzle.compute_move self S (c, tile, dir) =
  Puzzle.swap S tile ((tile.1 + dir.1) mod (Puzzle.__dimensions self).1,
                      (tile.2 + dir.2) mod (Puzzle.__dimensions self).2)
  ≫= fun computed_state =>
       Puzzle.from_state (Puzzle.__grid computed_state) (Some tile).
Proof. destruct self as [[w h] a pos], tile as [tx ty]. reflexivity. Qed.

Lemma from_state_cached a w h p :
  ndarray2 a w h -> 2 <= w -> 2 <= h ->
  Puzzle.from_state a (Some p) = Ok (Puzzle.mk (w, h) a p).
Proof.
  intros Ha Hw Hh. unfold Puzzle.from_state. simpl.
  destruct (ndarray2_shape a w h Ha) as [-> ->]; [lia|].
  unfold Puzzle.__init__. simpl.
  destruct (Z.ltb_spec w 2); [lia|]. destruct (Z.ltb_spec h 2); [lia|].
  reflexivity.
Qed.

(** A move on a cell of a well-formed state succeeds; it exchanges the
    values at the tile and at the tile moved by the direction, and caches
    the tile coordinate. *)
Lemma compute_move_in_range S c tile dir :
  well_formed S -> in_grid (Puzzle.__dimensions S).1 (Puzzle.__dimensions S).2 tile ->
  let target := ((tile.1 + dir.1) mod (Puzzle.__dimensions S).1,
                 (tile.2 + dir.2) mod (Puzzle.__dimensions S).2) in
  exists a',
    Puzzle.compute_move S S (c, tile, dir)
      = Ok (Puzzle.mk (Puzzle.__dimensions S) a' tile) /\
    well_formed (Puzzle.mk (Puzzle.__dimensions S) a' tile) /\
    forall r c, cell a' r c = swapped_cell (Puzzle.__grid S) tile target r c.
Proof.
  intros (Hw & Hh & Hg) Htile target.
  destruct S as [[w h] a pos]. simpl in *.
  assert (Htarget : in_grid w h target).
  { split; apply mod_in_range; assumption. }
  destruct (swap_in_range (Puzzle.mk (w, h) a pos) w h tile target Hg Htile Htarget)
    as (a' & Hswap & Ha' & Hcells).
  exists a'. split; [|split; [|exact Hcells]].
  - rewrite compute_move_unfold. simpl. fold target. rewrite Hswap. simpl.
    apply from_state_cached; assumption.
  - unfold well_formed. simpl. auto.
Qed.

End ComputeMove.

(** ** Undoing a move *)

Section Reversal.

Implicit Types (S : Puzzle.t) (m : PuzzleMove).

(** Every tile of the move list is a cell of the grid. *)
Lemma get_moves_tile_in_grid S m :
  well_formed S -> empty_in_range S -> m ∈ Puzzle.get_moves S ->
  in_grid (Puzzle.__dimensions S).1 (Puzzle.__dimensions S).2 m.1.2.
Proof.
  destruct S as [[w h] a [x y]].
  intros (Hw & Hh & _) [Hx Hy]. simpl in *.
  pose proof (fun k => mod_in_range k w Hw) as Mw.
  pose proof (fun k => mod_in_range k h Hh) as Mh.
  rewrite get_moves_unfold.
  intros Hin. apply elem_of_app in Hin as [Hin|Hin];
    apply list_elem_of_fmap in Hin as (t & -> & Ht); simpl.
  - revert Ht. unfold Puzzle.laterals_of.
    destruct (pos_eqb _ _); destruct (pos_eqb _ _); simpl; intros Ht;
      elem_of_cases Ht ltac:(split; simpl; auto).
  - revert Ht. unfold Puzzle.diagonals_of.
    destruct (negb _); [|intros Ht; apply elem_of_nil in Ht; contradiction].
    destruct (_ || _); destruct (_ || _); simpl; intros Ht;
      elem_of_cases Ht ltac:(split; simpl; auto).
Qed.

(** Exchanging the same two cells twice restores every cell. *)
Lemma swapped_cell_twice a a' p1 p2 r c :
  (forall r c, cell a' r c = swapped_cell a p1 p2 r c) ->
  swapped_cell a' p1 p2 r c = cell a r c.
Proof.
  intros Ha'. unfold swapped_cell, at_pos. rewrite !Ha'.
  unfold swapped_cell, at_pos.
  repeat case_decide; try reflexivity;
    repeat match goal with
           | H : _ /\ _ |- _ => destruct H
           end; subst; first [reflexivity | congruence | exfalso; intuition congruence].
Qed.

(** Two moves in a row whose exchanges cancel give back the grid. *)
Lemma compute_move_twice S c tile dir c' tile' dir' :
  well_formed S ->
  let w := (Puzzle.__dimensions S).1 in
  let h := (Puzzle.__dimensions S).2 in
  let target := ((tile.1 + dir.1) mod w, (tile.2 + dir.2) mod h) in
  let target' := ((tile'.1 + dir'.1) mod w, (tile'.2 + dir'.2) mod h) in
  in_grid w h tile ->
  (tile' = target /\ target' = tile) \/ (tile' = tile /\ target' = target) ->
  exists S1 S2,
    Puzzle.compute_move S S (c, tile, dir) = Ok S1 /\
    Puzzle.compute_move S1 S1 (c', tile', dir') = Ok S2 /\
    Puzzle.__eq__ S2 (Puzzle.PuzzleObject S) = true.
Proof.
  intros HS w h target target' Htile Hback.
  pose proof HS as (Hw & Hh & Hg).
  destruct (compute_move_in_range S c tile dir HS Htile) as (a1 & E1 & HS1 & C1).
  fold w h target in C1.
  set (S1 := Puzzle.mk (Puzzle.__dimensions S) a1 tile) in *.
  assert (Htarget : in_grid w h target).
  { split; apply mod_in_range; assumption. }
  assert (Htile' : in_grid w h tile').
  { destruct Hback as [[-> _]|[-> _]]; assumption. }
  destruct (compute_move_in_range S1 c' tile' dir' HS1 Htile')
    as (a2 & E2 & HS2 & C2).
  simpl in C2. fold w h target' in C2.
  exists S1, (Puzzle.mk (Puzzle.__dimensions S) a2 tile').
  split; [exact E1|]. split; [exact E2|].
  apply eq_iff_grid. simpl.
  destruct HS2 as (_ & _ & Hg2). simpl in Hg2.
  apply (ndarray2_ext a2 (Puzzle.__grid S) w h Hg2 Hg).
  intros r c0. rewrite C2.
  destruct Hback as [[-> ->]|[-> ->]].
  - apply swapped_cell_involutive. exact C1.
  - apply swapped_cell_twice. exact C1.
Qed.

Lemma mod_opposite k d n : n = 2 -> (k + - d) mod n = (k + d) mod n.
Proof.
  intros ->. replace (k + d) with (k + - d + d * 2) by lia.
  rewrite Z.mod_add by lia. reflexivity.
Qed.

End Reversal.

(** C2, as the code has it.  In a well-formed state, applying a lateral
    move of the list and then the move that takes the tile back (the tile
    coordinate the first move brought it to, the negated direction) gives a
    state equal to the original.  With the tile coordinate unchanged and the
    direction negated, as the specification words the reversing move, this
    holds when the axis of the move has size 2. *)
Theorem lateral_move_reversal S m :
  well_formed S -> empty_in_range S ->
  m ∈ Puzzle.get_moves S -> is_lateral m = true ->
  let w := (Puzzle.get_dimensions S).1 in
  let h := (Puzzle.get_dimensions S).2 in
  (exists S1 S2,
     Puzzle.compute_move S S m = Ok S1 /\
     Puzzle.compute_move S1 S1 (opposite_move w h m) = Ok S2 /\
     Puzzle.__eq__ S2 (Puzzle.PuzzleObject S) = true) /\
  ((is_horizontal m = true /\ w = 2) \/ (is_vertical m = true /\ h = 2) ->
   exists S1 S2,
     Puzzle.compute_move S S m = Ok S1 /\
     Puzzle.compute_move S1 S1 (negated_move m) = Ok S2 /\
     Puzzle.__eq__ S2 (Puzzle.PuzzleObject S) = true).
Proof.
  intros HS Hempty Hin Hlat w h.
  pose proof (get_moves_tile_in_grid S m HS Hempty Hin) as Htile.
  pose proof HS as (Hw & Hh & _).
  destruct m as [[c tile] [dx dy]]. simpl in Htile.
  unfold opposite_move, negated_move. simpl. split.
  - apply compute_move_twice; [exact HS | exact Htile |].
    left. split; [reflexivity|]. simpl.
    destruct tile as [tx ty]. destruct Htile as [Hx Hy]. simpl in *.
    f_equal; apply mod_back; assumption.
  - intros Haxis.
    apply compute_move_twice; [exact HS | exact Htile |].
    right. split; [reflexivity|]. simpl.
    unfold is_horizontal, is_vertical in Haxis. simpl in Haxis.
    destruct Haxis as [[Hdir Hsz]|[Hdir Hsz]];
      apply andb_true_iff in Hdir as [H1 H2].
    + apply Z.eqb_eq in H2. subst dy.
      f_equal; first [reflexivity | apply mod_opposite; exact Hsz].
    + apply Z.eqb_eq in H1. subst dx.
      f_equal; first [reflexivity | apply mod_opposite; exact Hsz].
Qed.

Lemma grid_3x3_well_formed : well_formed (Puzzle.mk (3, 3) grid_3x3 (1, 1)).
Proof.
  unfold well_formed, ndarray2. simpl.
  split; [lia|]. split; [lia|]. split; [reflexivity|].
  repeat constructor.
Defined.

Lemma lateral_move_reversal_witness :
  let S := Puzzle.mk (3, 3) grid_3x3 (1, 1) in
  well_formed S /\ empty_in_range S /\
  right_entry 3 3 1 1 ∈ Puzzle.get_moves S /\
  is_lateral (right_entry 3 3 1 1) = true /\
  exists S1 S2,
    Puzzle.compute_move S S (right_entry 3 3 1 1) = Ok S1 /\
    Puzzle.compute_move S1 S1 (opposite_move 3 3 (right_entry 3 3 1 1)) = Ok S2 /\
    Puzzle.__eq__ S2 (Puzzle.PuzzleObject S) = true.
Proof.
  assert (Hempty : empty_in_range (Puzzle.mk (3, 3) grid_3x3 (1, 1))).
  { unfold empty_in_range, in_grid. simpl. lia. }
  assert (Hin : right_entry 3 3 1 1
                  ∈ Puzzle.get_moves (Puzzle.mk (3, 3) grid_3x3 (1, 1))).
  { vm_compute. repeat constructor. }
  split; [exact grid_3x3_well_formed|]. split; [exact Hempty|].
  split; [exact Hin|]. split; [reflexivity|].
  exact (proj1 (lateral_move_reversal _ _ grid_3x3_well_formed Hempty Hin eq_refl)).
Defined.

(** C2, as the specification words it, fails: in the 3 by 3 state with the
    empty cell in the middle, the right move (tile (2,1), direction (-1,0))
    followed by the move with the same tile and the negated direction
    (1,0) leaves the marker at (0,1), a state unequal to the original. *)
Lemma negated_move_does_not_reverse :
  exists S m S1 S2,
    Puzzle.from_state grid_3x3 None = Ok S /\
    m ∈ Puzzle.get_moves S /\ is_lateral m = true /\
    m = (1, (2, 1), (-1, 0)) /\
    Puzzle.compute_move S S m = Ok S1 /\
    Puzzle.compute_move S1 S1 (negated_move m) = Ok S2 /\
    Puzzle.__grid S2 = [[1; 2; 3]; [0; 5; 4]; [6; 7; 8]] /\
    Puzzle.__eq__ S2 (Puzzle.PuzzleObject S) = false.
Proof.
  eexists _, (1, (2, 1), (-1, 0)), _, _.
  split; [reflexivity|].
  split; [vm_compute; repeat constructor|].
  repeat (split; [reflexivity|]). reflexivity.
Qed.

(** C1 on the code: a vertical move does not bring the marker to its tile.
    In the 3 by 3 state with the empty cell in the middle, the top move has
    tile (1,0) and direction (0,-1); [compute_move] exchanges the cells
    (1,0) and (1,2), the marker stays at (1,1), and the new state caches
    (1,0), a cell that holds 7. *)
Lemma compute_move_top_misplaces_marker :
  let S := Puzzle.mk (3, 3) grid_3x3 (1, 1) in
  let S' := Puzzle.mk (3, 3) [[1; 7; 3]; [4; 0; 5]; [6; 2; 8]] (1, 0) in
  Puzzle.from_state grid_3x3 None = Ok S /\
  top_entry 3 3 1 1 = (1, (1, 0), (0, -1)) /\
  top_entry 3 3 1 1 ∈ Puzzle.get_moves S /\
  Puzzle.compute_move S S (top_entry 3 3 1 1) = Ok S' /\
  Puzzle.locate_tile (Puzzle.get_internal_state S') 0 = Ok (1, 1) /\
  Puzzle.get_current_pos S' = (1, 0) /\
  Puzzle.__getitem__ S' (1, 0) = Ok 7.
Proof.
  cbv zeta. split; [reflexivity|]. split; [reflexivity|].
  split; [vm_compute; repeat constructor|].
  repeat (split; [reflexivity|]). reflexivity.
Qed.

Lemma lateral_cost_rule_witness :
  is_lateral (left_entry 4 4 0 0) = true /\
  crosses_seam 4 4 (0, 0) (3, 0) /\
  (left_entry 4 4 0 0).1.1 = 2.
Proof.
  assert (Hseam : crosses_seam 4 4 (0, 0) (3, 0)).
  { left. simpl. lia. }
  split; [reflexivity|]. split; [exact Hseam|].
  refine (proj1 (proj1 lateral_cost_rule
                   (Puzzle.mk (4, 4) grid_4x4 (0, 0)) (left_entry 4 4 0 0)
                   _ eq_refl) Hseam).
  vm_compute. repeat constructor.
Defined.

(** ** Reshaping and transposing *)

Section Reshape.

Implicit Types (l : list Z) (a : PuzzleInternalState) (c r i j : nat).

Lemma length_rows_of c r l : length (np.rows_of c r l) = r.
Proof.
  revert l. induction r as [|r IH]; intros l; simpl; [reflexivity|].
  rewrite IH. reflexivity.
Qed.

Lemma rows_of_lookup c r l i :
  (i < r)%nat -> np.rows_of c r l !! i = Some (take c (drop (i * c) l)).
Proof.
  revert l i. induction r as [|r IH]; intros l i Hi; [lia|].
  destruct i as [|i]; simpl.
  - reflexivity.
  - rewrite IH by lia. rewrite drop_drop. reflexivity.
Qed.

Lemma rows_of_cell c r l i j :
  (i < r)%nat -> (j < c)%nat ->
  cell (np.rows_of c r l) i j = l !! (i * c + j)%nat.
Proof.
  intros Hi Hj. unfold cell. rewrite rows_of_lookup by exact Hi. simpl.
  rewrite lookup_take_lt by exact Hj. apply lookup_drop.
Qed.

Lemma rows_of_ndarray2 c r l :
  length l = (r * c)%nat ->
  ndarray2 (np.rows_of c r l) (Z.of_nat c) (Z.of_nat r).
Proof.
  intros Hlen. split.
  - rewrite length_rows_of. reflexivity.
  - apply Forall_lookup. intros i row Hrow.
    assert (Hi : (i < r)%nat).
    { apply lookup_lt_Some in Hrow. rewrite length_rows_of in Hrow. exact Hrow. }
    rewrite rows_of_lookup in Hrow by exact Hi.
    injection Hrow as <-.
    rewrite length_take, length_drop. nia.
Qed.

(** Inside its bounds, [reshape] is [rows_of]. *)
Lemma reshape_rows_of l (r c : Z) :
  2 <= r -> 2 <= c -> Z.of_nat (length l) = r * c ->
  np.reshape l r c = Ok (np.rows_of (Z.to_nat c) (Z.to_nat r) l).
Proof.
  intros Hr Hc Hlen. unfold np.reshape.
  destruct (Z.eqb_spec r (-1)); [lia|].
  destruct (Z.eqb_spec c (-1)); [lia|]. simpl.
  destruct (Z.leb_spec 0 r); [|lia].
  destruct (Z.leb_spec 0 c); [|lia].
  destruct (Z.eqb_spec (r * c) (Z.of_nat (length l))); [|lia].
  reflexivity.
Qed.

Lemma T_lookup a j :
  (j < length (hd [] a))%nat ->
  np.T a !! j = Some ((fun row : list Z => row !!! j) <$> a).
Proof.
  intros Hj. unfold np.T.
  rewrite list_lookup_fmap, lookup_seq_lt by exact Hj. reflexivity.
Qed.

Lemma T_ndarray2 a w h :
  ndarray2 a w h -> 0 < h -> ndarray2 (np.T a) h w.
Proof.
  intros Ha Hh. destruct (ndarray2_shape a w h Ha Hh) as [Hw _].
  unfold np.shape1 in Hw. split.
  - unfold np.T. rewrite length_fmap, length_seq. exact Hw.
  - apply Forall_lookup. intros j row Hrow.
    assert (Hj : (j < length (hd [] a))%nat).
    { apply lookup_lt_Some in Hrow. unfold np.T in Hrow.
      rewrite length_fmap, length_seq in Hrow. exact Hrow. }
    rewrite T_lookup in Hrow by exact Hj. injection Hrow as <-.
    rewrite length_fmap. destruct Ha as [Hlen _]. exact Hlen.
Qed.

Lemma T_cell a w h i j :
  ndarray2 a w h -> Z.of_nat i < h -> Z.of_nat j < w ->
  cell (np.T a) j i = cell a i j.
Proof.
  intros Ha Hi Hj.
  destruct (ndarray2_shape a w h Ha) as [Hw _]; [lia|].
  unfold np.shape1 in Hw.
  destruct (ndarray2_lookup a w h (Z.of_nat i) Ha) as (row & Hrow & Hlen); [lia|].
  rewrite Nat2Z.id in Hrow.
  unfold cell. rewrite T_lookup by lia. simpl.
  rewrite list_lookup_fmap, Hrow. simpl.
  destruct (lookup_lt_is_Some_2 row j) as [v Hv]; [lia|].
  rewrite Hv. f_equal. apply list_lookup_total_correct, Hv.
Qed.

Lemma arange_rotated (n : Z) :
  1 <= n -> np.arange n = 0 :: seqZ 1 (n - 1).
Proof.
  intros Hn. unfold np.arange. rewrite seqZ_cons by lia.
  replace (Z.pred n) with (n - 1) by lia. reflexivity.
Qed.

Lemma length_goal_line (n : Z) : 1 <= n -> length (goal_line n) = Z.to_nat n.
Proof.
  intros Hn. unfold goal_line. rewrite length_app, length_seqZ. simpl. lia.
Qed.

Lemma goal_line_lookup (n : Z) i :
  1 <= n -> Z.of_nat i < n ->
  goal_line n !! i = Some (goal_value n (Z.of_nat i)).
Proof.
  intros Hn Hi. unfold goal_line, goal_value.
  destruct (Z.eqb_spec (Z.of_nat i) (n - 1)) as [Heq|Hne].
  - rewrite lookup_app_r by (rewrite length_seqZ; lia).
    rewrite length_seqZ.
    replace (i - Z.to_nat (n - 1))%nat with 0%nat by lia. reflexivity.
  - rewrite lookup_app_l by (rewrite length_seqZ; lia).
    rewrite lookup_seqZ_lt by lia. f_equal. lia.
Qed.

End Reshape.

(** ** Goal states *)

Section Goals.

Implicit Types (a : PuzzleInternalState) (w h x y : Z) (r c : nat).

(** A value held by one cell only is located at that cell. *)
Lemma locate_tile_unique a w h tile x y :
  ndarray2 a w h -> in_grid w h (x, y) ->
  at_pos a (x, y) = Some tile ->
  (forall r c, cell a r c = Some tile -> r = Z.to_nat y /\ c = Z.to_nat x) ->
  Puzzle.locate_tile a tile = Ok (x, y).
Proof.
  intros Ha [Hx Hy] Hat Huniq. simpl in Hx, Hy.
  apply locate_tile_Ok. split; [lia|]. split; [lia|].
  split; [exact Hat|].
  intros r' c' Hlt Hcell. apply Huniq in Hcell. lia.
Qed.

Lemma from_state_located a w h x y :
  ndarray2 a w h -> 2 <= w -> 2 <= h ->
  Puzzle.locate_tile a 0 = Ok (x, y) ->
  Puzzle.from_state a None = Ok (Puzzle.mk (w, h) a (x, y)).
Proof.
  intros Ha Hw Hh Hloc. unfold Puzzle.from_state. rewrite Hloc. simpl.
  destruct (ndarray2_shape a w h Ha) as [-> ->]; [lia|].
  unfold Puzzle.__init__. simpl.
  destruct (Z.ltb_spec w 2); [lia|]. destruct (Z.ltb_spec h 2); [lia|].
  reflexivity.
Qed.

Lemma goal_value_zero (n i : Z) : 0 <= i -> goal_value n i = 0 -> i = n - 1.
Proof.
  unfold goal_value. intros Hi. destruct (Z.eqb_spec i (n - 1)); lia.
Qed.

(** A grid whose cells are the goal values along an index that reaches
    [w*h - 1] only in the last cell is the goal state with the empty cell
    last. *)
Lemma goal_state a w h (idx : nat -> nat -> Z) :
  2 <= w -> 2 <= h -> ndarray2 a w h ->
  (forall r c, Z.of_nat r < h -> Z.of_nat c < w ->
     cell a r c = Some (goal_value (w * h) (idx r c)) /\
     0 <= idx r c /\
     (idx r c = w * h - 1 -> Z.of_nat r = h - 1 /\ Z.of_nat c = w - 1)) ->
  idx (Z.to_nat (h - 1)) (Z.to_nat (w - 1)) = w * h - 1 ->
  Puzzle.from_state a None = Ok (Puzzle.mk (w, h) a (w - 1, h - 1)).
Proof.
  intros Hw Hh Ha Hcells Hlast.
  apply from_state_located; try assumption.
  apply (locate_tile_unique a w h).
  - exact Ha.
  - split; simpl; lia.
  - unfold at_pos. simpl.
    destruct (Hcells (Z.to_nat (h - 1)) (Z.to_nat (w - 1))) as (-> & _ & _);
      [lia | lia |].
    rewrite Hlast. unfold goal_value. rewrite Z.eqb_refl. reflexivity.
  - intros r c Hcell.
    destruct (decide (Z.of_nat r < h /\ Z.of_nat c < w)) as [[Hr Hc]|Hout].
    + destruct (Hcells r c Hr Hc) as (Hv & Hpos & Hidx).
      rewrite Hv in Hcell. injection Hcell as Hzero.
      apply goal_value_zero in Hzero; [|exact Hpos].
      apply Hidx in Hzero. lia.
    + rewrite (cell_outside a w h r c Ha Hout) in Hcell. discriminate.
Qed.

Lemma goal1_cell w h r c :
  2 <= w -> 2 <= h -> Z.of_nat r < h -> Z.of_nat c < w ->
  cell (np.rows_of (Z.to_nat w) (Z.to_nat h) (goal_line (w * h))) r c
  = Some (goal_value (w * h) (Z.of_nat r * w + Z.of_nat c)).
Proof.
  intros Hw Hh Hr Hc.
  rewrite rows_of_cell by lia.
  rewrite goal_line_lookup by nia.
  do 2 f_equal. nia.
Qed.

Lemma goal2_cell w h r c :
  2 <= w -> 2 <= h -> Z.of_nat r < h -> Z.of_nat c < w ->
  cell (np.T (np.rows_of (Z.to_nat h) (Z.to_nat w) (goal_line (w * h)))) r c
  = Some (goal_value (w * h) (Z.of_nat c * h + Z.of_nat r)).
Proof.
  intros Hw Hh Hr Hc.
  assert (Hlen : length (goal_line (w * h)) = (Z.to_nat w * Z.to_nat h)%nat).
  { rewrite length_goal_line by nia. nia. }
  pose proof (rows_of_ndarray2 _ _ _ Hlen) as Hrows.
  rewrite (T_cell _ _ _ c r Hrows) by lia.
  rewrite rows_of_cell by lia.
  rewrite goal_line_lookup by nia.
  do 2 f_equal. nia.
Qed.

End Goals.

(** C9. For a state of dimensions (w, h), [find_goals] returns two
    states of these dimensions.  The first holds 1, 2, ..., w*h-1 and then
    the empty marker 0 along its rows (cell (x, y) is number y*w + x of the
    sequence); the second holds the same sequence along its columns (cell
    (x, y) is number x*h + y).  Both cache the last cell (w-1, h-1) as the
    empty cell.  For dimensions (3, 3) the first grid reads 1 2 3, 4 5 6,
    7 8 0 row by row, the second reads the same column by column. *)
Theorem find_goals_layout grid w h pos S :
  Puzzle.__init__ grid (w, h) pos = Ok S ->
  exists g1 g2,
    find_goals S = Ok (g1, g2) /\
    well_formed g1 /\ well_formed g2 /\
    Puzzle.get_dimensions g1 = (w, h) /\ Puzzle.get_dimensions g2 = (w, h) /\
    Puzzle.get_current_pos g1 = (w - 1, h - 1) /\
    Puzzle.get_current_pos g2 = (w - 1, h - 1) /\
    (forall x y, 0 <= x < w -> 0 <= y < h ->
       Puzzle.__getitem__ g1 (x, y) = Ok (goal_value (w * h) (y * w + x)) /\
       Puzzle.__getitem__ g2 (x, y) = Ok (goal_value (w * h) (x * h + y))) /\
    ((w, h) = (3, 3) ->
       Puzzle.get_internal_state g1 = [[1; 2; 3]; [4; 5; 6]; [7; 8; 0]] /\
       Puzzle.get_internal_state g2 = [[1; 4; 7]; [2; 5; 8]; [3; 6; 0]]).
Proof.
  intros Hinit. apply init_Ok in Hinit as (-> & Hw & Hh). simpl in Hw, Hh.
  set (line := goal_line (w * h)).
  set (a1 := np.rows_of (Z.to_nat w) (Z.to_nat h) line).
  set (a2 := np.T (np.rows_of (Z.to_nat h) (Z.to_nat w) line)).
  assert (Hlen : Z.of_nat (length line) = w * h).
  { unfold line. rewrite length_goal_line by nia. nia. }
  assert (Ha1 : ndarray2 a1 w h).
  { pose proof (rows_of_ndarray2 (Z.to_nat w) (Z.to_nat h) line) as H.
    rewrite !Z2Nat.id in H by lia. apply H. nia. }
  assert (Ha2 : ndarray2 a2 w h).
  { apply T_ndarray2; [|lia].
    pose proof (rows_of_ndarray2 (Z.to_nat h) (Z.to_nat w) line) as H.
    rewrite !Z2Nat.id in H by lia. apply H. nia. }
  assert (H1 : Puzzle.from_state a1 None = Ok (Puzzle.mk (w, h) a1 (w - 1, h - 1))).
  { apply (goal_state a1 w h (fun r c => Z.of_nat r * w + Z.of_nat c));
      try assumption; [|nia].
    intros r c Hr Hc. split; [apply goal1_cell; assumption|]. nia. }
  assert (H2 : Puzzle.from_state a2 None = Ok (Puzzle.mk (w, h) a2 (w - 1, h - 1))).
  { apply (goal_state a2 w h (fun r c => Z.of_nat c * h + Z.of_nat r));
      try assumption; [|nia].
    intros r c Hr Hc. split; [apply goal2_cell; assumption|]. nia. }
  exists (Puzzle.mk (w, h) a1 (w - 1, h - 1)), (Puzzle.mk (w, h) a2 (w - 1, h - 1)).
  split.
  { unfold find_goals, Puzzle.get_dimensions. simpl.
    rewrite arange_rotated by nia. simpl. fold (goal_line (w * h)). fold line.
    rewrite (reshape_rows_of line h w) by lia. simpl.
    rewrite (reshape_rows_of line w h) by lia. simpl.
    fold a1 a2. rewrite H1. simpl. rewrite H2. reflexivity. }
  split; [unfold well_formed; simpl; auto|].
  split; [unfold well_formed; simpl; auto|].
  do 4 (split; [reflexivity|]).
  split.
  - intros x y Hx Hy. unfold Puzzle.__getitem__. simpl. split.
    + apply (get_in_range a1 w h); try assumption.
      unfold a1, line. rewrite goal1_cell by lia.
      rewrite !Z2Nat.id by lia. reflexivity.
    + apply (get_in_range a2 w h); try assumption.
      unfold a2, line. rewrite goal2_cell by lia.
      rewrite !Z2Nat.id by lia. reflexivity.
  - intros [= -> ->]. split; reflexivity.
Qed.

Lemma find_goals_layout_witness :
  Puzzle.__init__ grid_2x3 (2, 3) (0, 0) = Ok (Puzzle.mk (2, 3) grid_2x3 (0, 0)) /\
  exists g1 g2,
    find_goals (Puzzle.mk (2, 3) grid_2x3 (0, 0)) = Ok (g1, g2) /\
    Puzzle.__getitem__ g1 (1, 2) = Ok 0 /\
    Puzzle.__getitem__ g2 (1, 0) = Ok 4.
Proof.
  split; [reflexivity|].
  destruct (find_goals_layout grid_2x3 2 3 (0, 0) _ eq_refl)
    as (g1 & g2 & Hgoals & _ & _ & _ & _ & _ & _ & Hcells & _).
  exists g1, g2. split; [exact Hgoals|].
  split.
  - exact (proj1 (Hcells 1 2 ltac:(lia) ltac:(lia))).
  - exact (proj2 (Hcells 1 0 ltac:(lia) ltac:(lia))).
Defined.

(** ** The empty cell after a move

    The horizontal and the diagonal entries carry the direction that leads
    from the tile to the empty cell, and so do the vertical entries on a
    grid of height 2.  For these moves [compute_move] brings the marker to
    the tile, where the new state caches it.  The vertical entries of a
    higher grid carry the opposite direction. *)

Section MarkerAfterMove.

Implicit Types (S : Puzzle.t) (m : PuzzleMove) (w h x y : Z).

Lemma mod_succ n k : 2 <= n -> 0 <= k < n ->
  (k + 1) mod n = if k + 1 =? n then 0 else k + 1.
Proof.
  intros Hn Hk. destruct (Z.eqb_spec (k + 1) n) as [->|Hne].
  - apply Z.mod_same. lia.
  - apply Z.mod_small. lia.
Qed.

Lemma mod_pred n k : 2 <= n -> 0 <= k < n ->
  (k - 1) mod n = if k =? 0 then n - 1 else k - 1.
Proof.
  intros Hn Hk. destruct (Z.eqb_spec k 0) as [->|Hne].
  - cbv iota. symmetry. apply (Z.mod_unique (0 - 1) n (-1)); lia.
  - apply Z.mod_small. lia.
Qed.

Lemma mod_succ_back n k : 2 <= n -> 0 <= k < n -> ((k + 1) mod n + -1) mod n = k.
Proof.
  intros Hn Hk. rewrite Z.add_mod_idemp_l by lia.
  replace (k + 1 + -1) with k by lia. apply Z.mod_small, Hk.
Qed.

Lemma mod_pred_back n k : 2 <= n -> 0 <= k < n -> ((k - 1) mod n + 1) mod n = k.
Proof.
  intros Hn Hk. rewrite Z.add_mod_idemp_l by lia.
  replace (k - 1 + 1) with k by lia. apply Z.mod_small, Hk.
Qed.

Lemma mod_pred_back2 k : 0 <= k < 2 -> ((k - 1) mod 2 + -1) mod 2 = k.
Proof.
  intros Hk. rewrite Z.add_mod_idemp_l by lia.
  replace (k - 1 + -1) with (k + (-1) * 2) by lia.
  rewrite Z.mod_add by lia. apply Z.mod_small, Hk.
Qed.

Lemma mod_succ_ne n k : 2 <= n -> 0 <= k < n -> (k + 1) mod n <> k.
Proof. intros Hn Hk. rewrite mod_succ by assumption. destruct (Z.eqb_spec (k + 1) n); lia. Qed.

Lemma mod_pred_ne n k : 2 <= n -> 0 <= k < n -> (k - 1) mod n <> k.
Proof. intros Hn Hk. rewrite mod_pred by assumption. destruct (Z.eqb_spec k 0); lia. Qed.

(** The moves whose direction leads from the tile to the empty cell. *)
Lemma move_target_is_empty grid w h x y m :
  2 <= w -> 2 <= h -> in_grid w h (x, y) ->
  m ∈ Puzzle.get_moves (Puzzle.mk (w, h) grid (x, y)) ->
  is_horizontal m = true \/ is_diagonal m = true \/ h = 2 ->
  ((m.1.2.1 + m.2.1) mod w, (m.1.2.2 + m.2.2) mod h) = (x, y) /\
  m.1.2 <> (x, y).
Proof.
  intros Hw Hh [Hx Hy] Hin Hkind. simpl in Hx, Hy.
  pose proof (mod_succ_back w x Hw Hx). pose proof (mod_pred_back w x Hw Hx).
  pose proof (mod_succ_back h y Hh Hy). pose proof (mod_pred_back h y Hh Hy).
  pose proof (mod_succ_ne w x Hw Hx). pose proof (mod_pred_ne w x Hw Hx).
  pose proof (mod_succ_ne h y Hh Hy). pose proof (mod_pred_ne h y Hh Hy).
  assert (Hsmall_x : (x + 0) mod w = x) by (rewrite Z.add_0_r; apply Z.mod_small, Hx).
  assert (Hsmall_y : (y + 0) mod h = y) by (rewrite Z.add_0_r; apply Z.mod_small, Hy).
  rewrite get_moves_closed in Hin by assumption.
  unfold moves_top_bottom_right_left, vertical_entries, diagonal_entries,
    top_entry, bottom_entry, right_entry, left_entry, lateral_entry in Hin.
  destruct (Z.eqb_spec h 2) as [->|Hh2].
  - pose proof (mod_pred_back2 y Hy). revert Hin.
    destruct (w =? 2); simpl app; case_ifs; intros Hin;
      elem_of_cases Hin ltac:(cbn [fst snd]; split; congruence).
  - assert (Hnv : is_horizontal m = true \/ is_diagonal m = true)
      by (destruct Hkind as [?|[?|?]]; [auto | auto | contradiction]).
    revert Hin Hnv.
    destruct (w =? 2); simpl app; case_ifs; intros Hin Hnv;
      elem_of_cases Hin
        ltac:(first [ exfalso; destruct Hnv as [Hk|Hk]; cbn in Hk; discriminate Hk
                    | cbn [fst snd]; split; congruence ]).
Qed.

(** X2. For these moves the marker ends at the move's tile: the new state
    caches the tile, the tile holds 0, no other cell does, and locating the
    marker returns the tile. *)
Lemma compute_move_marker_at_tile S m :
  well_formed S -> empty_in_range S -> marker_at_cache S ->
  m ∈ Puzzle.get_moves S ->
  is_horizontal m = true \/ is_diagonal m = true \/ (Puzzle.get_dimensions S).2 = 2 ->
  exists S',
    Puzzle.compute_move S S m = Ok S' /\
    well_formed S' /\ empty_in_range S' /\ marker_at_cache S' /\
    Puzzle.get_current_pos S' = m.1.2 /\
    Puzzle.locate_tile (Puzzle.get_internal_state S') 0 = Ok m.1.2.
Proof.
  intros HS Hempty Hmarker Hin Hkind.
  pose proof (get_moves_tile_in_grid S m HS Hempty Hin) as Htile.
  destruct S as [[w h] a [x y]]. destruct m as [[c [tx ty]] [dx dy]].
  pose proof HS as (Hw & Hh & Ha). simpl in Hw, Hh, Ha, Htile.
  destruct (move_target_is_empty a w h x y _ Hw Hh Hempty Hin Hkind)
    as [Htarget Hne]. simpl in Htarget, Hne.
  destruct (compute_move_in_range _ c (tx, ty) (dx, dy) HS Htile)
    as (a' & Hmove & HS' & Hcells).
  simpl in Hmove, HS', Hcells. rewrite Htarget in Hcells.
  destruct Hempty as [Hx Hy], Htile as [Htx Hty]. simpl in Hx, Hy, Htx, Hty.
  unfold marker_at_cache in Hmarker. simpl in Hmarker.
  assert (Hzero : at_pos a (x, y) = Some 0).
  { unfold at_pos. simpl. apply Hmarker. auto. }
  assert (Hmarker' : marker_at_cache (Puzzle.mk (w, h) a' (tx, ty))).
  { intros r c0. simpl. rewrite Hcells. unfold swapped_cell. simpl.
    destruct (decide (r = Z.to_nat y /\ c0 = Z.to_nat x)) as [[-> ->]|Hn1].
    - split.
      + intros Hat. apply Hmarker in Hat as [Hr Hc]. simpl in Hr, Hc.
        exfalso. apply Hne. f_equal; lia.
      + intros [Hr Hc]. exfalso. apply Hne. f_equal; lia.
    - destruct (decide (r = Z.to_nat ty /\ c0 = Z.to_nat tx)) as [[-> ->]|Hn2].
      + split; [auto | intros _; exact Hzero].
      + rewrite Hmarker. tauto. }
  exists (Puzzle.mk (w, h) a' (tx, ty)).
  split; [exact Hmove|]. split; [exact HS'|].
  split; [split; assumption|]. split; [exact Hmarker'|].
  split; [reflexivity|].
  destruct HS' as (_ & _ & Ha'). simpl in Ha'.
  apply (locate_tile_unique a' w h 0 tx ty Ha').
  - split; assumption.
  - unfold at_pos. simpl. apply Hmarker'. simpl. auto.
  - intros r c0 Hc0. apply Hmarker' in Hc0. exact Hc0.
Qed.

End MarkerAfterMove.

(** ** States the program builds

    The hypotheses [well_formed] and [empty_in_range] hold of every state
    built by [from_state] from an array, and [compute_move] keeps them: it
    never raises on a move of the list. *)

Section Reachable.

Implicit Types (S : Puzzle.t) (g : PuzzleInternalState) (m : PuzzleMove).

Lemma first_match_in_grid g w h r c :
  ndarray2 g w h -> first_match g 0 r c ->
  Z.of_nat r < h /\ Z.of_nat c < w.
Proof.
  intros Hg [Hcell _].
  destruct (decide (Z.of_nat r < h /\ Z.of_nat c < w)) as [Hin|Hout];
    [exact Hin|].
  rewrite (cell_outside g w h r c Hg Hout) in Hcell. discriminate.
Qed.

(** X3. A state built by [from_state] from an array of [h] rows and [w]
    columns, with the marker located by the scan, has dimensions [(w, h)],
    keeps the array, caches the coordinate the scan returns, which lies
    inside the grid, and reads 0 at that coordinate. *)
Lemma from_state_valid g w h S :
  ndarray2 g w h -> Puzzle.from_state g None = Ok S ->
  well_formed S /\ empty_in_range S /\
  Puzzle.get_internal_state S = g /\ Puzzle.get_dimensions S = (w, h) /\
  Puzzle.locate_tile g 0 = Ok (Puzzle.get_current_pos S) /\
  Puzzle.__getitem__ S (Puzzle.get_current_pos S) = Ok 0.
Proof.
  intros Hg Hfrom.
  destruct (from_state_well_formed g w h None S Hg Hfrom) as (HS & Hgrid & Hdim).
  assert (Hloc : Puzzle.locate_tile g 0 = Ok (Puzzle.__tile_pos S)).
  { unfold Puzzle.from_state in Hfrom.
    apply bind_Ok in Hfrom as (p & Hloc & Hinit).
    apply init_Ok in Hinit as (-> & _). exact Hloc. }
  unfold empty_in_range, Puzzle.__getitem__, Puzzle.get_internal_state,
    Puzzle.get_dimensions, Puzzle.get_current_pos.
  rewrite Hdim, Hgrid. destruct (Puzzle.__tile_pos S) as [x y].
  pose proof Hloc as Hfirst.
  apply locate_tile_Ok in Hfirst as (Hx & Hy & Hfirst).
  destruct (first_match_in_grid g w h _ _ Hg Hfirst) as [Hr Hc].
  assert (Hin : in_grid w h (x, y)) by (split; simpl; lia).
  split; [exact HS|]. split; [exact Hin|].
  split; [reflexivity|]. split; [reflexivity|]. split; [exact Hloc|].
  destruct Hin as [Hx' Hy']. simpl in Hx', Hy'. simpl.
  apply (get_in_range g w h y x 0 Hg Hy' Hx'). apply Hfirst.
Qed.

(** X1. On a well-formed state, [compute_move] raises on no move of the
    move list: it returns a well-formed state of the same dimensions that
    caches the move's tile, a cell of the grid. *)
Lemma compute_move_valid S m :
  well_formed S -> empty_in_range S -> m ∈ Puzzle.get_moves S ->
  exists S',
    Puzzle.compute_move S S m = Ok S' /\
    well_formed S' /\ empty_in_range S' /\
    Puzzle.get_dimensions S' = Puzzle.get_dimensions S /\
    Puzzle.get_current_pos S' = m.1.2.
Proof.
  intros HS Hempty Hin.
  pose proof (get_moves_tile_in_grid S m HS Hempty Hin) as Htile.
  destruct m as [[c tile] dir]. simpl in Htile.
  destruct (compute_move_in_range S c tile dir HS Htile) as (a' & Hmove & HS' & _).
  eexists. split; [exact Hmove|]. split; [exact HS'|].
  split; [exact Htile|]. split; reflexivity.
Qed.

(** X4. [from_state] raises the not-found error exactly when it has to
    locate the marker and no cell holds 0, and the invalid-configuration
    error exactly when the marker is given or found and a size of the array
    is below 2: a missing marker is reported before a bad size. *)
Lemma from_state_failures g tile_pos :
  (Puzzle.from_state g tile_pos = Raise TileNotFound <->
     tile_pos = None /\ forall r c, cell g r c <> Some 0) /\
  (Puzzle.from_state g tile_pos = Raise ValueError <->
     (tile_pos = None -> exists r c, cell g r c = Some 0) /\
     (np.shape1 g < 2 \/ np.shape0 g < 2)).
Proof.
  pose proof init_Ok_or_ValueError as Hinit.
  unfold Puzzle.from_state. destruct tile_pos as [p|]; simpl.
  - destruct (Hinit g (np.shape1 g, np.shape0 g) p) as [[Hlt ->]|[Hge ->]];
      simpl in *; split; split;
      try discriminate; try (intros [? _]; discriminate);
      try (intros _; split; [discriminate | assumption]);
      try (intros [_ ?]; first [reflexivity | lia]).
  - pose proof (locate_from_spec g 0 0) as Hspec.
    unfold Puzzle.locate_tile.
    destruct (Puzzle.locate_from g 0 0) as [[x y]|e]; simpl.
    + destruct Hspec as (r & c & _ & _ & Hcell & _).
      destruct (Hinit g (np.shape1 g, np.shape0 g) (x, y)) as [[Hlt ->]|[Hge ->]];
        simpl in *; split; split;
        try discriminate;
        try (intros [_ Hnone]; exfalso; exact (Hnone _ _ Hcell));
        try (intros _; split; [eauto | assumption]);
        try (intros [_ ?]; first [reflexivity | lia]).
    + destruct Hspec as [-> Hnone]. split; split.
      * auto.
      * reflexivity.
      * discriminate.
      * intros [Hsome _]. destruct (Hsome eq_refl) as (r & c & Hcell).
        exfalso. exact (Hnone _ _ Hcell).
Qed.

End Reachable.

(** ** Concrete states *)

Lemma grid_3x3_ndarray2 : ndarray2 grid_3x3 3 3.
Proof. split; [reflexivity | repeat constructor]. Qed.

Lemma grid_3x3_empty_in_range : empty_in_range (Puzzle.mk (3, 3) grid_3x3 (1, 1)).
Proof. unfold empty_in_range, in_grid. simpl. lia. Qed.

Lemma grid_3x3_marker : marker_at_cache (Puzzle.mk (3, 3) grid_3x3 (1, 1)).
Proof.
  intros r c. simpl.
  destruct r as [|[|[|r]]]; destruct c as [|[|[|c]]]; vm_compute;
    split; intros H; first [discriminate H | destruct H; discriminate | auto].
Qed.

Lemma right_entry_in_moves_3x3 :
  right_entry 3 3 1 1 ∈ Puzzle.get_moves (Puzzle.mk (3, 3) grid_3x3 (1, 1)).
Proof. vm_compute. repeat constructor. Qed.

Lemma compute_move_valid_witness :
  let S := Puzzle.mk (3, 3) grid_3x3 (1, 1) in
  well_formed S /\ empty_in_range S /\
  right_entry 3 3 1 1 ∈ Puzzle.get_moves S /\
  exists S',
    Puzzle.compute_move S S (right_entry 3 3 1 1) = Ok S' /\
    well_formed S' /\ empty_in_range S' /\
    Puzzle.get_dimensions S' = Puzzle.get_dimensions S /\
    Puzzle.get_current_pos S' = (right_entry 3 3 1 1).1.2.
Proof.
  split; [exact grid_3x3_well_formed|].
  split; [exact grid_3x3_empty_in_range|].
  split; [exact right_entry_in_moves_3x3|].
  exact (compute_move_valid _ _ grid_3x3_well_formed grid_3x3_empty_in_range
           right_entry_in_moves_3x3).
Defined.

Lemma compute_move_marker_at_tile_witness :
  let S := Puzzle.mk (3, 3) grid_3x3 (1, 1) in
  well_formed S /\ empty_in_range S /\ marker_at_cache S /\
  right_entry 3 3 1 1 ∈ Puzzle.get_moves S /\
  is_horizontal (right_entry 3 3 1 1) = true /\
  exists S',
    Puzzle.compute_move S S (right_entry 3 3 1 1) = Ok S' /\
    Puzzle.locate_tile (Puzzle.get_internal_state S') 0 = Ok (2, 1).
Proof.
  split; [exact grid_3x3_well_formed|].
  split; [exact grid_3x3_empty_in_range|].
  split; [exact grid_3x3_marker|].
  split; [exact right_entry_in_moves_3x3|].
  split; [reflexivity|].
  destruct (compute_move_marker_at_tile _ _ grid_3x3_well_formed
              grid_3x3_empty_in_range grid_3x3_marker right_entry_in_moves_3x3
              (or_introl eq_refl))
    as (S' & Hmove & _ & _ & _ & _ & Hloc).
  exists S'. split; [exact Hmove | exact Hloc].
Defined.

Lemma from_state_valid_witness :
  ndarray2 grid_3x3 3 3 /\
  Puzzle.from_state grid_3x3 None = Ok (Puzzle.mk (3, 3) grid_3x3 (1, 1)) /\
  Puzzle.__getitem__ (Puzzle.mk (3, 3) grid_3x3 (1, 1)) (1, 1) = Ok 0.
Proof.
  split; [exact grid_3x3_ndarray2|]. split; [reflexivity|].
  exact (proj2 (proj2 (proj2 (proj2 (proj2
    (from_state_valid grid_3x3 3 3 _ grid_3x3_ndarray2 eq_refl)))))).
Defined.

(** ** The values of the grid across a move *)

Section FlatContents.

Implicit Types (a g : PuzzleInternalState) (S : Puzzle.t) (l : list Z).

(** The cell in row [r], column [c] is element [r * w + c] of the
    row-major listing. *)
Lemma cell_concat g (w : nat) r c :
  Forall (fun row => length row = w) g -> (c < w)%nat ->
  cell g r c = concat g !! (r * w + c)%nat.
Proof.
  intros Hrows Hc. revert r.
  induction Hrows as [|row g Hrow Hrows IH]; intros r.
  - unfold cell. rewrite !lookup_nil. reflexivity.
  - destruct r as [|r]; simpl.
    + unfold cell. simpl. rewrite lookup_app_l by lia. reflexivity.
    + rewrite lookup_app_r by lia.
      replace (w + r * w + c - length row)%nat with (r * w + c)%nat by lia.
      apply IH.
Qed.

Lemma concat_insert_cell g (w : nat) r c row v :
  Forall (fun row => length row = w) g -> g !! r = Some row -> (c < w)%nat ->
  concat (<[r := <[c := v]> row]> g) = <[(r * w + c)%nat := v]> (concat g).
Proof.
  intros Hrows. revert r.
  induction Hrows as [|row0 g Hrow0 Hrows IH]; intros r Hr Hc.
  - rewrite lookup_nil in Hr. discriminate.
  - destruct r as [|r]; simpl in *.
    + injection Hr as ->. rewrite insert_app_l by lia. reflexivity.
    + rewrite (IH r Hr Hc).
      replace (w + r * w + c)%nat with (length row0 + (r * w + c))%nat by lia.
      rewrite insert_app_r. reflexivity.
Qed.

Lemma ndarray2_rows a w h :
  ndarray2 a w h -> Forall (fun row => length row = Z.to_nat w) a.
Proof.
  intros [_ Hrows]. eapply Forall_impl; [exact Hrows|].
  simpl. intros row Hrow. lia.
Qed.

Lemma get_concat a w h i j v :
  ndarray2 a w h -> 0 <= i < h -> 0 <= j < w ->
  np.get a i j = Ok v ->
  concat a !! (Z.to_nat i * Z.to_nat w + Z.to_nat j)%nat = Some v.
Proof.
  intros Ha Hi Hj Hget.
  destruct (cell_in_range a w h i j Ha Hi Hj) as [v' Hv'].
  rewrite (get_in_range a w h i j v' Ha Hi Hj Hv') in Hget.
  injection Hget as <-.
  rewrite <- (cell_concat a (Z.to_nat w)); [exact Hv' | | lia].
  eapply ndarray2_rows, Ha.
Qed.

Lemma set_concat a w h i j v a' :
  ndarray2 a w h -> 0 <= i < h -> 0 <= j < w ->
  np.set a i j v = Ok a' ->
  ndarray2 a' w h /\
  concat a' = <[(Z.to_nat i * Z.to_nat w + Z.to_nat j)%nat := v]> (concat a).
Proof.
  intros Ha Hi Hj Hset.
  destruct (set_in_range a w h i j v Ha Hi Hj) as (a1 & Hset1 & Ha1 & _).
  split; [congruence|].
  destruct (ndarray2_lookup a w h i Ha Hi) as (row & Hrow & Hlen).
  unfold np.set in Hset.
  rewrite (axis_index_in_range (length a) i) in Hset by (destruct Ha; lia).
  simpl in Hset. rewrite Hrow in Hset.
  rewrite (axis_index_in_range (length row) j) in Hset by lia.
  simpl in Hset. injection Hset as <-.
  apply concat_insert_cell; [eapply ndarray2_rows, Ha | exact Hrow | lia].
Qed.

(** Writing each of two elements of a list over the other permutes it. *)
Lemma insert_one_perm l j (v1 v2 : Z) :
  l !! j = Some v2 -> v2 :: <[j := v1]> l ≡ₚ v1 :: l.
Proof.
  revert j. induction l as [|x l IH]; intros j Hj.
  - rewrite lookup_nil in Hj. discriminate.
  - destruct j as [|j]; simpl in *.
    + injection Hj as ->. apply Permutation_swap.
    + rewrite (Permutation_swap x v2), (IH j Hj). apply Permutation_swap.
Qed.

Lemma insert_swap_perm l i j (v1 v2 : Z) :
  l !! i = Some v1 -> l !! j = Some v2 ->
  <[j := v1]> (<[i := v2]> l) ≡ₚ l.
Proof.
  revert i j. induction l as [|x l IH]; intros i j Hi Hj.
  - rewrite lookup_nil in Hi. discriminate.
  - destruct i as [|i], j as [|j]; simpl in *.
    + injection Hi as ->. reflexivity.
    + injection Hi as ->. apply insert_one_perm, Hj.
    + injection Hj as ->. apply insert_one_perm, Hi.
    + rewrite (IH i j Hi Hj). reflexivity.
Qed.

Lemma swap_permutes S w h p1 p2 S' :
  ndarray2 (Puzzle.__grid S) w h -> in_grid w h p1 -> in_grid w h p2 ->
  Puzzle.swap S p1 p2 = Ok S' ->
  concat (Puzzle.__grid S') ≡ₚ concat (Puzzle.__grid S).
Proof.
  intros Ha [Hx1 Hy1] [Hx2 Hy2] Hswap.
  unfold Puzzle.swap, Puzzle.__getitem__, Puzzle.__setitem__ in Hswap.
  apply bind_Ok in Hswap as (v2 & Hv2 & Hswap).
  apply bind_Ok in Hswap as (v1 & Hv1 & Hswap).
  apply bind_Ok in Hswap as (S1 & HS1 & Hswap).
  apply bind_Ok in HS1 as (a1 & Ha1 & HS1). injection HS1 as <-.
  apply bind_Ok in Hswap as (a2 & Ha2 & Hswap). injection Hswap as <-.
  simpl in *.
  destruct (set_concat _ _ _ _ _ _ _ Ha Hy1 Hx1 Ha1) as [Hshape1 E1].
  destruct (set_concat _ _ _ _ _ _ _ Hshape1 Hy2 Hx2 Ha2) as [_ E2].
  rewrite E2, E1.
  apply insert_swap_perm; eapply get_concat; eauto.
Qed.

End FlatContents.

(** X5. A move of the list rearranges the tiles and loses none: the
    values of the new grid, listed row by row, are a permutation of the
    values of the old one.  This holds for the vertical moves as well. *)
Theorem compute_move_permutes S m S' :
  well_formed S -> empty_in_range S -> m ∈ Puzzle.get_moves S ->
  Puzzle.compute_move S S m = Ok S' ->
  concat (Puzzle.get_internal_state S') ≡ₚ concat (Puzzle.get_internal_state S).
Proof.
  intros HS Hempty Hin Hmove.
  pose proof (get_moves_tile_in_grid S m HS Hempty Hin) as Htile.
  pose proof HS as (Hw & Hh & Ha).
  destruct m as [[c tile] dir]. simpl in Htile.
  rewrite compute_move_unfold in Hmove.
  apply bind_Ok in Hmove as (S1 & Hswap & Hfrom).
  assert (Hperm : concat (Puzzle.__grid S1) ≡ₚ concat (Puzzle.__grid S)).
  { eapply swap_permutes; [exact Ha | exact Htile | | exact Hswap].
    split; apply mod_in_range; assumption. }
  unfold Puzzle.from_state in Hfrom. simpl in Hfrom.
  apply init_Ok in Hfrom as (-> & _). exact Hperm.
Qed.

Lemma compute_move_permutes_witness :
  let S := Puzzle.mk (3, 3) grid_3x3 (1, 1) in
  let S' := Puzzle.mk (3, 3) [[1; 7; 3]; [4; 0; 5]; [6; 2; 8]] (1, 0) in
  well_formed S /\ empty_in_range S /\
  top_entry 3 3 1 1 ∈ Puzzle.get_moves S /\
  Puzzle.compute_move S S (top_entry 3 3 1 1) = Ok S' /\
  [1; 7; 3; 4; 0; 5; 6; 2; 8] ≡ₚ [1; 2; 3; 4; 0; 5; 6; 7; 8].
Proof.
  assert (Hin : top_entry 3 3 1 1
                  ∈ Puzzle.get_moves (Puzzle.mk (3, 3) grid_3x3 (1, 1))).
  { vm_compute. repeat constructor. }
  split; [exact grid_3x3_well_formed|].
  split; [exact grid_3x3_empty_in_range|].
  split; [exact Hin|]. split; [reflexivity|].
  exact (compute_move_permutes _ _ _ grid_3x3_well_formed
           grid_3x3_empty_in_range Hin eq_refl).
Defined.

(** ** The tiles of the move list *)

Section MoveTiles.

Implicit Types (w h x y : Z).

Lemma cost_values w h x y tile :
  Puzzle.cost w h x y tile = 1 \/ Puzzle.cost w h x y tile = 2.
Proof. unfold Puzzle.cost. case_ifs; auto. Qed.

Lemma neighbours_differ n k :
  2 <= n -> n <> 2 -> (k - 1) mod n <> (k + 1) mod n.
Proof.
  intros Hn Hne. apply Z.eqb_neq. rewrite neighbours_coincide by exact Hn.
  apply Z.eqb_neq, Hne.
Qed.

Lemma moves_closed_NoDup w h x y :
  2 <= w -> 2 <= h -> in_grid w h (x, y) ->
  NoDup (tiles_of (moves_top_bottom_right_left w h x y)) /\
  (2 <= length (moves_top_bottom_right_left w h x y) <= 6)%nat.
Proof.
  intros Hw Hh [Hx Hy]. simpl in Hx, Hy.
  pose proof (mod_succ_ne w x Hw Hx). pose proof (mod_pred_ne w x Hw Hx).
  pose proof (mod_succ_ne h y Hh Hy). pose proof (mod_pred_ne h y Hh Hy).
  pose proof (neighbours_differ w x Hw) as Dw.
  pose proof (neighbours_differ h y Hh) as Dh.
  unfold moves_top_bottom_right_left, vertical_entries, diagonal_entries,
    top_entry, bottom_entry, right_entry, left_entry, lateral_entry, tiles_of.
  destruct (Z.eqb_spec h 2) as [Eh|Nh], (Z.eqb_spec w 2) as [Ew|Nw];
    try specialize (Dw Nw); try specialize (Dh Nh);
    simpl app; cbn [andb];
    case_ifs; cbn [fmap list_fmap fst snd length];
    (split; [|lia]);
    repeat (apply NoDup_cons; split);
    try apply NoDup_nil_2;
    rewrite ?not_elem_of_cons; repeat split;
    try apply not_elem_of_nil; congruence.
Qed.

End MoveTiles.

(** X6. In a well-formed state whose cached coordinate is a cell of the
    grid, the move list names no tile twice, every tile is a cell of the
    grid other than the empty cell, every cost is 1, 2 or 3, and there are
    between two and six moves. *)
Theorem get_moves_tiles_distinct S :
  well_formed S -> empty_in_range S ->
  NoDup (tiles_of (Puzzle.get_moves S)) /\
  (forall m, m ∈ Puzzle.get_moves S ->
     in_grid (Puzzle.get_dimensions S).1 (Puzzle.get_dimensions S).2 m.1.2 /\
     m.1.2 <> Puzzle.get_current_pos S /\
     (m.1.1 = 1 \/ m.1.1 = 2 \/ m.1.1 = 3)) /\
  (2 <= length (Puzzle.get_moves S) <= 6)%nat.
Proof.
  intros HS Hempty.
  assert (Htiles : forall m, m ∈ Puzzle.get_moves S ->
            in_grid (Puzzle.get_dimensions S).1 (Puzzle.get_dimensions S).2 m.1.2)
    by (intros m; apply get_moves_tile_in_grid; assumption).
  destruct S as [[w h] a [x y]].
  pose proof HS as (Hw & Hh & _). pose proof Hempty as [Hx Hy].
  simpl in Hw, Hh, Hx, Hy, Htiles.
  unfold Puzzle.get_dimensions, Puzzle.get_current_pos. simpl.
  rewrite get_moves_closed in * by assumption.
  destruct (moves_closed_NoDup w h x y Hw Hh Hempty) as [Hnodup Hlen].
  split; [exact Hnodup|]. split; [|exact Hlen].
  intros m Hm. split; [apply Htiles, Hm|].
  pose proof (mod_succ_ne w x Hw Hx). pose proof (mod_pred_ne w x Hw Hx).
  pose proof (mod_succ_ne h y Hh Hy). pose proof (mod_pred_ne h y Hh Hy).
  revert Hm.
  unfold moves_top_bottom_right_left, vertical_entries, diagonal_entries,
    top_entry, bottom_entry, right_entry, left_entry, lateral_entry.
  destruct (h =? 2), (w =? 2); simpl app; cbn [andb]; case_ifs; intros Hm;
    elem_of_cases Hm
      ltac:(cbn [fst snd]; split;
            [congruence
            | first [ right; right; reflexivity
                    | match goal with
                      | |- Puzzle.cost ?a ?b ?c ?d ?t = 1 \/ _ =>
                          destruct (cost_values a b c d t) as [->| ->]; auto
                      end ]]).
Qed.

Lemma get_moves_tiles_distinct_witness :
  let S := Puzzle.mk (3, 3) grid_3x3 (1, 1) in
  well_formed S /\ empty_in_range S /\
  NoDup (tiles_of (Puzzle.get_moves S)) /\
  (2 <= length (Puzzle.get_moves S) <= 6)%nat.
Proof.
  split; [exact grid_3x3_well_formed|].
  split; [exact grid_3x3_empty_in_range|].
  destruct (get_moves_tiles_distinct _ grid_3x3_well_formed
              grid_3x3_empty_in_range) as (Hnodup & _ & Hlen).
  split; [exact Hnodup | exact Hlen].
Defined.

(** ** Reading and writing a cell *)

Section Items.

Implicit Types (S : Puzzle.t) (a : PuzzleInternalState) (i j x y : Z).

Lemma axis_index_wrap (n : nat) i :
  0 <= i < Z.of_nat n -> np.axis_index n (i - Z.of_nat n) = np.axis_index n i.
Proof.
  intros Hi. rewrite (axis_index_in_range n i Hi). unfold np.axis_index.
  destruct (Z.leb_spec 0 (i - Z.of_nat n)); [lia|]. simpl.
  destruct (Z.leb_spec (- Z.of_nat n) (i - Z.of_nat n)); [|lia].
  destruct (Z.ltb_spec (i - Z.of_nat n) 0); [|lia]. simpl.
  f_equal. lia.
Qed.

Lemma axis_index_outside (n : nat) i :
  ~ (- Z.of_nat n <= i < Z.of_nat n) -> np.axis_index n i = Raise IndexError.
Proof.
  intros Hi. unfold np.axis_index.
  destruct (Z.leb_spec 0 i), (Z.ltb_spec i (Z.of_nat n)),
           (Z.leb_spec (- Z.of_nat n) i), (Z.ltb_spec i 0);
    simpl; first [reflexivity | lia].
Qed.

Lemma axis_index_Ok (n : nat) i k :
  np.axis_index n i = Ok k -> (k < n)%nat.
Proof.
  unfold np.axis_index.
  destruct (Z.leb_spec 0 i), (Z.ltb_spec i (Z.of_nat n)),
           (Z.leb_spec (- Z.of_nat n) i), (Z.ltb_spec i 0);
    simpl; intros [= <-]; lia.
Qed.

(** An index outside [-size, size) on either axis raises. *)
Lemma get_outside a w h i j :
  ndarray2 a w h -> ~ (- h <= i < h /\ - w <= j < w) ->
  np.get a i j = Raise IndexError.
Proof.
  intros Ha Hout. unfold np.get.
  destruct (np.axis_index (length a) i) as [r|e] eqn:Hr.
  - simpl. destruct (a !! r) as [row|] eqn:Hrow; [|reflexivity].
    pose proof (ndarray2_row a w h r row Ha Hrow) as Hlen.
    rewrite axis_index_outside; [reflexivity|].
    destruct (decide (- h <= i < h)) as [Hi|Hi]; [lia|].
    rewrite axis_index_outside in Hr; [discriminate|].
    destruct Ha as [<- _]. exact Hi.
  - simpl. f_equal.
    revert Hr. unfold np.axis_index. case_ifs; congruence.
Qed.

Lemma set_outside a w h i j v :
  ndarray2 a w h -> ~ (- h <= i < h /\ - w <= j < w) ->
  np.set a i j v = Raise IndexError.
Proof.
  intros Ha Hout. unfold np.set.
  destruct (np.axis_index (length a) i) as [r|e] eqn:Hr.
  - simpl. destruct (a !! r) as [row|] eqn:Hrow; [|reflexivity].
    pose proof (ndarray2_row a w h r row Ha Hrow) as Hlen.
    rewrite axis_index_outside; [reflexivity|].
    destruct (decide (- h <= i < h)) as [Hi|Hi]; [lia|].
    rewrite axis_index_outside in Hr; [discriminate|].
    destruct Ha as [<- _]. exact Hi.
  - simpl. f_equal.
    revert Hr. unfold np.axis_index. case_ifs; congruence.
Qed.

Lemma get_wrap a w h i j :
  ndarray2 a w h -> 0 <= i < h -> 0 <= j < w ->
  np.get a (i - h) j = np.get a i j /\
  np.get a i (j - w) = np.get a i j.
Proof.
  intros Ha Hi Hj.
  destruct (ndarray2_lookup a w h i Ha Hi) as (row & Hrow & Hlen).
  pose proof Ha as [Hh _].
  unfold np.get. split.
  - rewrite <- Hh at 1. rewrite axis_index_wrap by lia. reflexivity.
  - rewrite (axis_index_in_range (length a) i) by lia. simpl. rewrite Hrow.
    rewrite <- Hlen at 1. rewrite axis_index_wrap by lia. reflexivity.
Qed.

End Items.

(** X7. On a well-formed state, copying the value of one cell to a
    coordinate of the grid ([S[key] = S[src]]) succeeds and changes the
    cell at [key] only: reading [key] back gives the value copied, every
    other cell of the grid reads as before, and the dimensions and the
    cached coordinate are kept.  A coordinate reduced by the width or the
    height reads the same cell (numpy counts a negative index from the
    end), and a coordinate outside [-w, w) or [-h, h) raises [IndexError],
    for a read and for a write. *)
Theorem setitem_then_getitem S key src v :
  well_formed S ->
  Puzzle.__getitem__ S src = Ok v ->
  let w := (Puzzle.get_dimensions S).1 in
  let h := (Puzzle.get_dimensions S).2 in
  (in_grid w h key ->
   exists S',
     Puzzle.__setitem__ S key v = Ok S' /\
     Puzzle.__getitem__ S' key = Ok v /\
     (forall p, in_grid w h p -> p <> key ->
        Puzzle.__getitem__ S' p = Puzzle.__getitem__ S p) /\
     Puzzle.get_dimensions S' = Puzzle.get_dimensions S /\
     Puzzle.get_current_pos S' = Puzzle.get_current_pos S /\
     well_formed S') /\
  (in_grid w h key ->
   Puzzle.__getitem__ S (key.1 - w, key.2) = Puzzle.__getitem__ S key /\
   Puzzle.__getitem__ S (key.1, key.2 - h) = Puzzle.__getitem__ S key) /\
  (~ (- w <= key.1 < w /\ - h <= key.2 < h) ->
   Puzzle.__getitem__ S key = Raise IndexError /\
   Puzzle.__setitem__ S key v = Raise IndexError).
Proof.
  intros HS _ w h. pose proof HS as (Hw & Hh & Ha).
  destruct S as [[w0 h0] a pos]. destruct key as [kx ky].
  unfold Puzzle.get_dimensions, Puzzle.get_internal_state in *.
  simpl in *. subst w h.
  unfold Puzzle.__getitem__, Puzzle.__setitem__. simpl.
  split; [|split].
  - intros [Hx Hy]. simpl in Hx, Hy.
    destruct (set_in_range a w0 h0 ky kx v Ha Hy Hx) as (a' & Hset & Ha' & Hcells).
    exists (Puzzle.mk (w0, h0) a' pos). rewrite Hset. simpl.
    split; [reflexivity|]. split; [|split].
    + apply (get_in_range a' w0 h0 ky kx v Ha' Hy Hx).
      rewrite Hcells, decide_True by auto. reflexivity.
    + intros [px py] [Hpx Hpy] Hne. simpl in Hpx, Hpy. cbn [fst snd].
      destruct (cell_in_range a w0 h0 py px Ha Hpy Hpx) as [u Hu].
      rewrite (get_in_range a w0 h0 py px u Ha Hpy Hpx Hu).
      apply (get_in_range a' w0 h0 py px u Ha' Hpy Hpx).
      rewrite Hcells, decide_False; [exact Hu|].
      intros [E1 E2]. apply Hne. f_equal; lia.
    + split; [reflexivity|]. split; [reflexivity|].
      unfold well_formed. simpl. auto.
  - intros [Hx Hy]. simpl in Hx, Hy.
    destruct (get_wrap a w0 h0 ky kx Ha Hy Hx) as [E1 E2]. auto.
  - intros Hout. split.
    + apply (get_outside a w0 h0); [exact Ha | tauto].
    + rewrite (set_outside a w0 h0); [reflexivity | exact Ha | tauto].
Qed.

Lemma setitem_then_getitem_witness :
  let S := Puzzle.mk (3, 3) grid_3x3 (1, 1) in
  well_formed S /\
  Puzzle.__getitem__ S (2, 1) = Ok 5 /\
  exists S',
    Puzzle.__setitem__ S (0, 0) 5 = Ok S' /\
    Puzzle.__getitem__ S' (0, 0) = Ok 5 /\
    Puzzle.__getitem__ S' (2, 1) = Ok 5 /\
    Puzzle.__getitem__ S' (1, 1) = Ok 0 /\
    Puzzle.get_current_pos S' = (1, 1).
Proof.
  split; [exact grid_3x3_well_formed|]. split; [reflexivity|].
  destruct (proj1 (setitem_then_getitem _ (0, 0) (2, 1) 5
                     grid_3x3_well_formed eq_refl))
    as (S' & Hset & Hget & Hrest & _ & Hpos & _).
  { split; simpl; lia. }
  exists S'. split; [exact Hset|]. split; [exact Hget|].
  split; [|split; [|exact Hpos]].
  - rewrite Hrest; [reflexivity | split; simpl; lia | discriminate].
  - rewrite Hrest; [reflexivity | split; simpl; lia | discriminate].
Defined.

(** ** States from a flat list *)

Section FromIntList.

Implicit Types (l : list Z) (g : PuzzleInternalState) (r c k : nat).

Lemma concat_rows_of c r l :
  length l = (r * c)%nat -> concat (np.rows_of c r l) = l.
Proof.
  revert l. induction r as [|r IH]; intros l Hlen; simpl.
  - destruct l; [reflexivity | discriminate].
  - rewrite IH by (rewrite length_drop; lia). apply take_drop.
Qed.

Lemma reshape_nonneg l (r c : Z) :
  0 <= r -> 0 <= c ->
  np.reshape l r c =
  if r * c =? Z.of_nat (length l)
  then Ok (np.rows_of (Z.to_nat c) (Z.to_nat r) l)
  else Raise ValueError.
Proof.
  intros Hr Hc. unfold np.reshape.
  destruct (Z.eqb_spec r (-1)); [lia|].
  destruct (Z.eqb_spec c (-1)); [lia|]. simpl.
  destruct (Z.leb_spec 0 r); [|lia].
  destruct (Z.leb_spec 0 c); [|lia]. reflexivity.
Qed.

(** A value is in some cell of an array exactly when it is in the
    row-major listing. *)
Lemma cell_elem_of_concat g (v : Z) :
  (exists r c, cell g r c = Some v) <-> v ∈ concat g.
Proof.
  rewrite list_elem_of_In, in_concat. split.
  - intros (r & c & Hcell). unfold cell in Hcell.
    destruct (g !! r) as [row|] eqn:Hrow; [|discriminate]. simpl in Hcell.
    exists row. split; apply list_elem_of_In, list_elem_of_lookup; eauto.
  - intros (row & Hrow & Hv).
    apply list_elem_of_In, list_elem_of_lookup in Hrow as [r Hr].
    apply list_elem_of_In, list_elem_of_lookup in Hv as [c Hc].
    exists r, c. unfold cell. rewrite Hr. exact Hc.
Qed.

(** The first match of the scan is the first occurrence in the listing. *)
Lemma first_match_flat g (w : nat) (v : Z) r c :
  Forall (fun row => length row = w) g -> (c < w)%nat ->
  first_match g v r c ->
  concat g !! (r * w + c)%nat = Some v /\
  forall k, (k < r * w + c)%nat -> concat g !! k <> Some v.
Proof.
  intros Hrows Hc [Hcell Hbefore]. split.
  - rewrite <- (cell_concat g w r c Hrows Hc). exact Hcell.
  - intros k Hk.
    pose proof (Nat.div_mod_eq k w) as Hdiv.
    pose proof (Nat.mod_upper_bound k w ltac:(lia)) as Hmod.
    rewrite Hdiv, (Nat.mul_comm w).
    rewrite <- (cell_concat g w _ _ Hrows Hmod).
    apply Hbefore.
    destruct (lt_eq_lt_dec (k / w) r) as [[Hlt|Heq]|Hgt]; [left; exact Hlt | |].
    + right. split; [exact Heq|]. rewrite <- Heq in Hk. lia.
    + exfalso. nia.
Qed.

(** A list of ints that all fit [int64] is stored as it is, in an array
    of integers unless it is empty. *)
Lemma asarray_fits asarray_wide l :
  Forall (fun z => np.fits_int64 z = true) l ->
  (np.asarray asarray_wide l).2 = l /\
  (l <> [] -> (np.asarray asarray_wide l).1 = np.int64).
Proof.
  intros Hfits. unfold np.asarray.
  destruct l as [|z l]; [split; [reflexivity | congruence]|].
  replace (forallb np.fits_int64 (z :: l)) with true; [split; reflexivity|].
  symmetry. apply forallb_forall. intros x Hx.
  apply list_elem_of_In in Hx.
  exact (proj1 (Forall_forall _ _) Hfits x Hx).
Qed.

End FromIntList.

(** X8. [from_int_list] on a list of ints that all fit [int64], with sizes
    [w, h >= 0], lays the list out row by row.  It raises [ValueError] when the list does not have [w*h] elements,
    or holds a 0 while a size is below 2; it raises the not-found error when
    the list has [w*h] elements and no 0; otherwise it returns a state of
    dimensions [(w, h)] whose cell [(x, y)] is element [y*w + x] of the
    list, whose row-major listing is the list, whose grid is an array of
    integers, and whose cached coordinate is the place [(i mod w, i / w)]
    of the first 0 of the list.  (What numpy makes of an int outside
    [int64] plays no part.) *)
Theorem from_int_list_layout asarray_wide l w h :
  Forall (fun z => np.fits_int64 z = true) l ->
  0 <= w -> 0 <= h ->
  let n := Z.of_nat (length l) in
  let from_int_list := Puzzle.from_int_list asarray_wide in
  (from_int_list l (w, h) = Raise ValueError <->
     n <> w * h \/ (0 ∈ l /\ (w < 2 \/ h < 2))) /\
  (from_int_list l (w, h) = Raise TileNotFound <->
     n = w * h /\ 0 ∉ l) /\
  ((exists S, from_int_list l (w, h) = Ok S) <->
     n = w * h /\ 0 ∈ l /\ 2 <= w /\ 2 <= h) /\
  (forall S, from_int_list l (w, h) = Ok S ->
     well_formed S /\
     Puzzle.get_dimensions S = (w, h) /\
     concat (Puzzle.get_internal_state S) = l /\
     Puzzle.from_int_list_dtype asarray_wide l = np.int64 /\
     (forall x y, 0 <= x < w -> 0 <= y < h ->
        exists v, l !! Z.to_nat (y * w + x) = Some v /\
                  Puzzle.__getitem__ S (x, y) = Ok v) /\
     exists i : nat,
       l !! i = Some 0 /\ (forall k, (k < i)%nat -> l !! k <> Some 0) /\
       Puzzle.get_current_pos S = (Z.of_nat i mod w, Z.of_nat i / w)).
Proof.
  intros Hfits Hw Hh n from_int_list. subst from_int_list.
  destruct (asarray_fits asarray_wide l Hfits) as [Hcells Hdtype].
  unfold Puzzle.from_int_list, Puzzle.from_int_list_dtype.
  rewrite Hcells. simpl.
  rewrite (reshape_nonneg l h w Hh Hw). fold n.
  destruct (Z.eqb_spec (h * w) n) as [Hn|Hn]; simpl.
  2:{ split; [|split; [|split]].
      - split; [intros _; left; lia | reflexivity].
      - split; [discriminate | intros [? _]; lia].
      - split; [intros [S HS]; discriminate | intros [? _]; lia].
      - intros S HS. discriminate. }
  set (g := np.rows_of (Z.to_nat w) (Z.to_nat h) l).
  assert (Hlen : length l = (Z.to_nat h * Z.to_nat w)%nat) by (subst n; nia).
  assert (Hg : ndarray2 g w h).
  { pose proof (rows_of_ndarray2 (Z.to_nat w) (Z.to_nat h) l Hlen) as H.
    rewrite !Z2Nat.id in H by lia. exact H. }
  assert (Hflat : concat g = l) by (apply concat_rows_of, Hlen).
  pose proof (ndarray2_rows g w h Hg) as Hrows.
  pose proof (cell_elem_of_concat g 0) as Hzero. rewrite Hflat in Hzero.
  unfold Puzzle.from_state.
  destruct (Puzzle.locate_tile g 0) as [[x y]|e] eqn:Hloc; simpl.
  - apply locate_tile_Ok in Hloc as (Hx & Hy & Hfirst).
    destruct (first_match_in_grid g w h _ _ Hg Hfirst) as [Hr Hc].
    assert (Hin : 0 ∈ l) by (apply Hzero; destruct Hfirst; eauto).
    destruct (ndarray2_shape g w h Hg) as [-> ->]; [lia|].
    destruct (init_Ok_or_ValueError g (w, h) (x, y)) as [[Hlt ->]|[[Hw2 Hh2] ->]];
      simpl in *.
    + split; [|split; [|split]].
      * split; [intros _; right; auto | reflexivity].
      * split; [discriminate | intros [_ Hnot]; contradiction].
      * split; [intros [S HS]; discriminate | intros (_ & _ & ? & ?); lia].
      * intros S HS. discriminate.
    + split; [|split; [|split]].
      * split; [discriminate | intros [?|[_ ?]]; lia].
      * split; [discriminate | intros [_ Hnot]; contradiction].
      * split; [intros _; repeat split; auto; lia | eauto].
      * intros S [= <-].
        unfold Puzzle.get_dimensions, Puzzle.get_internal_state,
          Puzzle.get_current_pos, Puzzle.__getitem__. simpl.
        split; [unfold well_formed; simpl; auto|].
        split; [reflexivity|]. split; [exact Hflat|].
        split; [apply Hdtype; intros ->; inversion Hin|]. split.
        -- intros x0 y0 Hx0 Hy0.
           destruct (cell_in_range g w h y0 x0 Hg Hy0 Hx0) as [v Hv].
           exists v. split; [|apply (get_in_range g w h); assumption].
           rewrite (cell_concat g (Z.to_nat w)) in Hv by (assumption || lia).
           rewrite Hflat in Hv. rewrite <- Hv. f_equal. nia.
        -- assert (Hcw : (Z.to_nat x < Z.to_nat w)%nat) by lia.
           destruct (first_match_flat g (Z.to_nat w) 0 _ _ Hrows Hcw Hfirst)
             as [Hi Hbefore].
           rewrite Hflat in Hi, Hbefore.
           exists (Z.to_nat y * Z.to_nat w + Z.to_nat x)%nat.
           split; [exact Hi|]. split; [exact Hbefore|].
           assert (E : Z.of_nat (Z.to_nat y * Z.to_nat w + Z.to_nat x) = w * y + x)
             by nia.
           rewrite E. f_equal.
           ++ apply (Z.mod_unique (w * y + x) w y x); lia.
           ++ apply (Z.div_unique (w * y + x) w y x); lia.
  - apply locate_tile_Raise in Hloc as [-> Hnone].
    assert (Hnot : 0 ∉ l).
    { intros Hin. apply Hzero in Hin as (r & c & Hcell).
      exact (Hnone _ _ Hcell). }
    split; [|split; [|split]].
    + split; [discriminate | intros [?|[? _]]; [lia | contradiction]].
    + split; [intros _; split; [lia | exact Hnot] | reflexivity].
    + split; [intros [S HS]; discriminate | intros (_ & ? & _); contradiction].
    + intros S HS. discriminate.
Qed.

Lemma from_int_list_layout_witness :
  let l := [1; 2; 3; 4; 0; 5] in
  let asarray_wide := fun _ : list Z => (np.object_, @nil Z) in
  Forall (fun z => np.fits_int64 z = true) l /\ 0 <= 3 /\ 0 <= 2 /\
  exists S,
    Puzzle.from_int_list asarray_wide l (3, 2) = Ok S /\
    Puzzle.get_dimensions S = (3, 2) /\
    concat (Puzzle.get_internal_state S) = l /\
    Puzzle.from_int_list_dtype asarray_wide l = np.int64.
Proof.
  cbv zeta.
  assert (Hfits : Forall (fun z => np.fits_int64 z = true) [1; 2; 3; 4; 0; 5])
    by (repeat constructor).
  split; [exact Hfits|]. split; [lia|]. split; [lia|].
  pose proof (from_int_list_layout (fun _ => (np.object_, [])) _ 3 2
                Hfits ltac:(lia) ltac:(lia)) as (_ & _ & Hok & Hlayout).
  cbv zeta in Hok, Hlayout.
  destruct (proj2 Hok) as [S HS].
  { split; [reflexivity|]. split; [|lia].
    apply list_elem_of_lookup. exists 4%nat. reflexivity. }
  exists S. split; [exact HS|].
  destruct (Hlayout S HS) as (_ & Hdim & Hflat & Hdt & _).
  auto.
Defined.

(** ** The single-line listing *)

Section SingleLine.

Implicit Types (s t : string) (ts : list string) (g : PuzzleInternalState).

Lemma foldl_rows_fmap {A : Type} (f : Z -> A) g (acc : list A) :
  foldl (fun acc r => foldl (fun acc c => acc ++ [f c]) acc r) acc g
  = acc ++ (f <$> concat g).
Proof.
  revert acc. induction g as [|row g IH]; intros acc; simpl.
  - rewrite app_nil_r. reflexivity.
  - rewrite IH, foldl_snoc_fmap, fmap_app, app_assoc. reflexivity.
Qed.

Lemma to_single_line_str_unfold float_str dt (S : Puzzle.t) :
  Puzzle.to_single_line_str float_str dt S
  = String.concat " "
      (Puzzle.str_cell float_str dt <$> concat (Puzzle.__grid S)).
Proof. unfold Puzzle.to_single_line_str. rewrite foldl_rows_fmap. reflexivity. Qed.

(** The cells of a grid that does not hold floats print as numerals. *)
Lemma str_cell_int float_str dt :
  dt <> np.float64 -> Puzzle.str_cell float_str dt = pretty.
Proof. intros Hdt. destruct dt; first [reflexivity | congruence]. Qed.

Lemma no_space_pretty_N_go (x : N) s :
  no_space s = true -> no_space (pretty_N_go x s) = true.
Proof.
  revert s. induction (N.lt_wf_0 x) as [x _ IH]; intros s Hs.
  destruct (decide (x = 0)%N) as [->|Hx].
  - rewrite pretty_N_go_0. exact Hs.
  - rewrite pretty_N_go_step by lia. apply IH.
    + apply N.div_lt; lia.
    + simpl. rewrite Hs, andb_true_r.
      unfold pretty_N_char. repeat case_match; reflexivity.
Qed.

Lemma nonempty_pretty_N_go (x : N) s :
  (0 < x)%N \/ s <> EmptyString -> pretty_N_go x s <> EmptyString.
Proof.
  revert s. induction (N.lt_wf_0 x) as [x _ IH]; intros s Hs.
  destruct (decide (x = 0)%N) as [->|Hx].
  - rewrite pretty_N_go_0. destruct Hs as [?|?]; [lia | assumption].
  - rewrite pretty_N_go_step by lia. apply IH.
    + apply N.div_lt; lia.
    + right. discriminate.
Qed.

Lemma pretty_N_token (x : N) :
  no_space (pretty x) = true /\ pretty x <> EmptyString.
Proof.
  unfold pretty, pretty_N. destruct (decide (x = 0)%N) as [->|Hx].
  - split; [reflexivity | discriminate].
  - split; [apply no_space_pretty_N_go; reflexivity|].
    apply nonempty_pretty_N_go. left. lia.
Qed.

(** The numeral of an integer is not empty and has no space in it. *)
Lemma pretty_Z_token (z : Z) :
  no_space (pretty z) = true /\ pretty z <> EmptyString.
Proof.
  destruct z as [|p|p]; unfold pretty, pretty_Z.
  - split; [reflexivity | discriminate].
  - apply (pretty_N_token (N.pos p)).
  - destruct (pretty_N_token (N.pos p)) as [Hns _].
    split; [exact Hns | discriminate].
Qed.

Lemma cut_no_space t : no_space t = true -> cut_at_space t = (t, None).
Proof.
  induction t as [|c t IH]; simpl; [reflexivity|].
  destruct (Ascii.eqb c " "); simpl; [discriminate|].
  intros Ht. rewrite (IH Ht). reflexivity.
Qed.

Lemma cut_app_space t s :
  no_space t = true ->
  cut_at_space (t +:+ String " " s) = (t, Some s).
Proof.
  induction t as [|c t IH]; simpl; [reflexivity|].
  destruct (Ascii.eqb c " "); simpl; [discriminate|].
  intros Ht. rewrite (IH Ht). reflexivity.
Qed.

Lemma concat_space_cons t t' ts :
  String.concat " " (t :: t' :: ts)
  = t +:+ String " " (String.concat " " (t' :: ts)).
Proof. reflexivity. Qed.

(** Joining tokens with single spaces loses nothing. *)
Lemma join_tokens_inj ts1 ts2 :
  Forall (fun t => no_space t = true /\ t <> EmptyString) ts1 ->
  Forall (fun t => no_space t = true /\ t <> EmptyString) ts2 ->
  String.concat " " ts1 = String.concat " " ts2 -> ts1 = ts2.
Proof.
  intros H1. revert ts2.
  induction H1 as [|t1 ts1 [Hn1 He1] H1 IH]; intros ts2 H2 Heq.
  - destruct H2 as [|t2 ts2 [Hn2 He2] H2]; [reflexivity|].
    exfalso. destruct ts2 as [|t' ts2].
    + simpl in Heq. congruence.
    + rewrite concat_space_cons in Heq. destruct t2; [congruence | discriminate].
  - destruct H2 as [|t2 ts2 [Hn2 He2] H2].
    + exfalso. destruct ts1 as [|t' ts1].
      * simpl in Heq. congruence.
      * rewrite concat_space_cons in Heq. destruct t1; [congruence | discriminate].
    + apply (f_equal cut_at_space) in Heq.
      destruct ts1 as [|t1' ts1], ts2 as [|t2' ts2];
        rewrite ?concat_space_cons in Heq;
        rewrite ?cut_app_space in Heq by assumption;
        simpl String.concat in Heq;
        rewrite ?cut_no_space in Heq by assumption.
      * congruence.
      * discriminate.
      * discriminate.
      * injection Heq as -> Hrest. f_equal. apply IH; assumption.
Qed.

Lemma no_space_app s t :
  no_space (s +:+ t) = no_space s && no_space t.
Proof.
  induction s as [|c s IH]; simpl; [reflexivity|].
  rewrite IH. destruct (Ascii.eqb c " "); reflexivity.
Qed.

Lemma app_nonempty_ne s t : t <> EmptyString -> s +:+ t <> s.
Proof.
  intros Ht. induction s as [|c s IH]; simpl.
  - exact Ht.
  - intros [= E]. exact (IH E).
Qed.

End SingleLine.

(** X9. For a grid that does not hold floats, the single-line listing is
    the row-major list of the decimal numerals of the cells, separated by
    single spaces, and it identifies the state among the well-formed states
    of the same dimensions whose grids do not hold floats: two of them have
    the same listing exactly when they are equal.  A grid of floats is
    listed with the cells as Python prints floats, never as a numeral, so
    its listing differs from the one of an equal state whose grid does not
    hold floats. *)
Theorem to_single_line_str_injective float_str dp dq p q :
  dp <> np.float64 -> dq <> np.float64 ->
  well_formed p -> well_formed q ->
  Puzzle.get_dimensions p = Puzzle.get_dimensions q ->
  (Puzzle.to_single_line_str float_str dp p
   = Puzzle.to_single_line_str float_str dq q <->
   Puzzle.__eq__ p (Puzzle.PuzzleObject q) = true) /\
  Puzzle.to_single_line_str float_str dp p
  = String.concat " " (pretty <$> concat (Puzzle.get_internal_state p)) /\
  ((forall c, no_space (float_str c) = true /\ float_str c <> EmptyString) ->
   (forall c, float_str c <> pretty c) ->
   Puzzle.__eq__ p (Puzzle.PuzzleObject q) = true ->
   Puzzle.to_single_line_str float_str np.float64 p
   <> Puzzle.to_single_line_str float_str dq q).
Proof.
  intros Hdp Hdq (Hw & Hh & Hp) (_ & _ & Hq) Hdim.
  rewrite eq_iff_grid, !to_single_line_str_unfold.
  rewrite !(str_cell_int float_str dp Hdp), !(str_cell_int float_str dq Hdq).
  assert (Hnum : Forall (fun t => no_space t = true /\ t <> EmptyString)
                   (pretty <$> concat (Puzzle.__grid q))).
  { apply Forall_fmap, Forall_forall. intros z _. apply pretty_Z_token. }
  split; [|split; [reflexivity|]].
  - split.
    + intros Hline. apply join_tokens_inj in Hline.
      * apply (inj (fmap pretty)) in Hline.
        rewrite <- Hdim in Hq. unfold Puzzle.get_internal_state in *.
        pose proof (reshape_concat _ _ _ Hp ltac:(lia)) as Ep.
        pose proof (reshape_concat _ _ _ Hq ltac:(lia)) as Eq.
        rewrite Hline in Ep. congruence.
      * apply Forall_fmap, Forall_forall. intros z _. apply pretty_Z_token.
      * exact Hnum.
    + intros ->. reflexivity.
  - intros Htoken Hfloat Heq Hline. simpl in Hline.
    apply join_tokens_inj in Hline; [| |exact Hnum].
    + rewrite Heq in Hline.
      pose proof (length_concat_rows _ _ _ Hq) as Hlen.
      unfold Puzzle.get_internal_state in *.
      destruct (concat (Puzzle.__grid q)) as [|c l].
      * simpl in Hlen. rewrite <- Hdim in Hlen. nia.
      * injection Hline as Hc _. exact (Hfloat c Hc).
    + apply Forall_fmap, Forall_forall. intros z _. apply Htoken.
Qed.

Lemma to_single_line_str_injective_witness :
  let S := Puzzle.mk (3, 3) grid_3x3 (1, 1) in
  let float_str := fun c : Z => (pretty c +:+ ".0")%string in
  well_formed S /\
  np.int64 <> np.float64 /\ np.uint64 <> np.float64 /\
  Puzzle.to_single_line_str float_str np.int64 S
  = "1 2 3 4 0 5 6 7 8"%string /\
  (Puzzle.to_single_line_str float_str np.int64 S
   = Puzzle.to_single_line_str float_str np.uint64 S <->
   Puzzle.__eq__ S (Puzzle.PuzzleObject S) = true) /\
  Puzzle.to_single_line_str float_str np.float64 S
  <> Puzzle.to_single_line_str float_str np.uint64 S.
Proof.
  cbv zeta.
  assert (H1 : np.int64 <> np.float64) by discriminate.
  assert (H2 : np.uint64 <> np.float64) by discriminate.
  split; [exact grid_3x3_well_formed|]. split; [exact H1|]. split; [exact H2|].
  pose proof (to_single_line_str_injective
                (fun c : Z => (pretty c +:+ ".0")%string) np.int64 np.uint64
                _ _ H1 H2 grid_3x3_well_formed grid_3x3_well_formed eq_refl)
    as (Hiff & Hline & Hfloat).
  split; [rewrite Hline; vm_compute; reflexivity|]. split; [exact Hiff|].
  apply Hfloat; [| |reflexivity].
  - intros c. split.
    + rewrite no_space_app, (proj1 (pretty_Z_token c)). reflexivity.
    + destruct (pretty c); discriminate.
  - intros c. apply app_nonempty_ne. discriminate.
Defined.

(** ** Going back along a horizontal move *)

Section Back.

Implicit Types (S : Puzzle.t) (m : PuzzleMove) (w h x y : Z).

(** A move, and then the move of the exchanged cell back to the tile. *)
Lemma move_and_back S c tile dir c' dir' S' :
  well_formed S ->
  let w := (Puzzle.__dimensions S).1 in
  let h := (Puzzle.__dimensions S).2 in
  let e := ((tile.1 + dir.1) mod w, (tile.2 + dir.2) mod h) in
  in_grid w h tile ->
  ((e.1 + dir'.1) mod w, (e.2 + dir'.2) mod h) = tile ->
  Puzzle.compute_move S S (c, tile, dir) = Ok S' ->
  Puzzle.__dimensions S' = Puzzle.__dimensions S /\
  Puzzle.__tile_pos S' = tile /\
  exists S'',
    Puzzle.compute_move S' S' (c', e, dir') = Ok S'' /\
    Puzzle.__eq__ S'' (Puzzle.PuzzleObject S) = true /\
    Puzzle.__tile_pos S'' = e.
Proof.
  intros HS w h e Htile Hback Hmove.
  pose proof HS as (Hw & Hh & _).
  destruct (compute_move_in_range S c tile dir HS Htile) as (a1 & E1 & HS1 & _).
  rewrite E1 in Hmove. injection Hmove as <-.
  split; [reflexivity|]. split; [reflexivity|].
  destruct (compute_move_twice S c tile dir c' e dir' HS Htile)
    as (S1 & S2 & F1 & F2 & Heq).
  { left. split; [reflexivity | exact Hback]. }
  rewrite E1 in F1. injection F1 as <-.
  assert (He : in_grid w h e) by (split; apply mod_in_range; assumption).
  destruct (compute_move_in_range _ c' e dir' HS1 He) as (a2 & E2 & _ & _).
  exists S2. split; [exact F2|]. split; [exact Heq|].
  rewrite E2 in F2. injection F2 as <-. reflexivity.
Qed.

Lemma cost_swap_x w h x x' y :
  Puzzle.cost w h x y (x', y) = Puzzle.cost w h x' y (x, y).
Proof.
  unfold Puzzle.cost. simpl.
  destruct (w >? 2), (x' =? 0), (x =? w - 1), (x' =? w - 1), (x =? 0);
    reflexivity.
Qed.

Lemma horizontal_entries w h x y m :
  m ∈ moves_top_bottom_right_left w h x y -> is_horizontal m = true ->
  m = right_entry w h x y \/ (w <> 2 /\ m = left_entry w h x y).
Proof.
  intros Hin Hhor.
  assert (Hf : In m (List.filter is_horizontal (moves_top_bottom_right_left w h x y))).
  { apply filter_In. split; [apply list_elem_of_In, Hin | exact Hhor]. }
  rewrite filter_horizontal_closed in Hf.
  destruct (Z.eqb_spec w 2); simpl in Hf; intuition.
Qed.

Lemma right_left_in_moves w h x y :
  right_entry w h x y ∈ moves_top_bottom_right_left w h x y /\
  (w <> 2 -> left_entry w h x y ∈ moves_top_bottom_right_left w h x y).
Proof.
  unfold moves_top_bottom_right_left.
  split; [|intros Hw]; apply elem_of_app; right; apply elem_of_app; left.
  - destruct (w =? 2); repeat constructor.
  - destruct (Z.eqb_spec w 2); [contradiction | repeat constructor].
Qed.

Lemma mod_succ_twice n k : n = 2 -> 0 <= k < n -> ((k + 1) mod n + 1) mod n = k.
Proof.
  intros -> Hk. rewrite Z.add_mod_idemp_l by lia.
  replace (k + 1 + 1) with (k + 1 * 2) by lia.
  rewrite Z.mod_add by lia. apply Z.mod_small, Hk.
Qed.

(** The entry of the move list at [(x', y)] that leads to [(x, y)], for
    [x'] a horizontal neighbour of [x]: its tile is [(x, y)], and its
    direction leads from [(x, y)] to [(x', y)]. *)
Lemma back_entry w h x y x' :
  2 <= w -> 0 <= x < w ->
  x' = (x + 1) mod w \/ x' = (x - 1) mod w ->
  exists m',
    m' ∈ moves_top_bottom_right_left w h x' y /\ is_horizontal m' = true /\
    m'.1.2 = (x, y) /\ m'.1.1 = Puzzle.cost w h x' y (x, y) /\
    m'.2.2 = 0 /\ (x + m'.2.1) mod w = x'.
Proof.
  intros Hw Hx [->| ->].
  - destruct (Z.eqb_spec w 2) as [Ew|Nw].
    + exists (right_entry w h ((x + 1) mod w) y).
      split; [apply right_left_in_moves|]. split; [reflexivity|].
      unfold right_entry, lateral_entry. cbn [fst snd].
      rewrite (mod_succ_twice w x Ew Hx).
      repeat split. exact (mod_opposite x 1 w Ew).
    + exists (left_entry w h ((x + 1) mod w) y).
      split; [apply right_left_in_moves, Nw|]. split; [reflexivity|].
      unfold left_entry, lateral_entry. cbn [fst snd].
      replace (((x + 1) mod w - 1) mod w) with x
        by (symmetry; apply mod_succ_back; assumption).
      repeat split.
  - exists (right_entry w h ((x - 1) mod w) y).
    split; [apply right_left_in_moves|]. split; [reflexivity|].
    unfold right_entry, lateral_entry. cbn [fst snd].
    rewrite (mod_pred_back w x Hw Hx).
    repeat split.
Qed.

End Back.

(** X10. A horizontal move can be taken back at the same cost.  In a
    well-formed state, after a horizontal move of the list, the move list
    of the new state holds a horizontal move whose tile is the cell the
    marker left and whose cost is the cost of the first move; applying it
    gives a state equal to the original, with the original cached
    coordinate. *)
Theorem horizontal_move_reversible S m S' :
  well_formed S -> empty_in_range S ->
  m ∈ Puzzle.get_moves S -> is_horizontal m = true ->
  Puzzle.compute_move S S m = Ok S' ->
  exists m' S'',
    m' ∈ Puzzle.get_moves S' /\ is_horizontal m' = true /\
    m'.1.2 = Puzzle.get_current_pos S /\ m'.1.1 = m.1.1 /\
    Puzzle.compute_move S' S' m' = Ok S'' /\
    Puzzle.__eq__ S'' (Puzzle.PuzzleObject S) = true /\
    Puzzle.get_current_pos S'' = Puzzle.get_current_pos S.
Proof.
  intros HS Hempty Hin Hhor Hmove.
  pose proof (get_moves_tile_in_grid S m HS Hempty Hin) as Htile.
  destruct S as [[w h] a [x y]].
  pose proof HS as (Hw & Hh & _). pose proof Hempty as [Hx Hy].
  simpl in Hw, Hh, Hx, Hy, Htile.
  unfold Puzzle.get_current_pos. simpl.
  rewrite get_moves_closed in Hin by assumption.
  assert (Hy0 : (y + 0) mod h = y) by (rewrite Z.add_0_r; apply Z.mod_small, Hy).
  (* the tile is a horizontal neighbour (x', y), with a direction to (x, y) *)
  assert (Hm : exists x' dx,
             m = (Puzzle.cost w h x y (x', y), (x', y), (dx, 0)) /\
             (x' = (x + 1) mod w \/ x' = (x - 1) mod w) /\
             (x' + dx) mod w = x).
  { destruct (horizontal_entries w h x y m Hin Hhor) as [->|[_ ->]].
    - exists ((x + 1) mod w), (-1). split; [reflexivity|].
      split; [left; reflexivity | apply mod_succ_back; assumption].
    - exists ((x - 1) mod w), 1. split; [reflexivity|].
      split; [right; reflexivity | apply mod_pred_back; assumption]. }
  destruct Hm as (x' & dx & -> & Hx' & Hdx). simpl in Htile.
  destruct (back_entry w h x y x' Hw Hx Hx')
    as ([[c' tile'] [dx' dy']] & Hin' & Hhor' & Htile' & Hcost' & Hdy' & Hdx').
  simpl in Htile', Hcost', Hdy', Hdx'. subst tile' dy'.
  destruct (move_and_back _ (Puzzle.cost w h x y (x', y)) (x', y) (dx, 0)
              c' (dx', 0) S' HS Htile)
    as (Hdim & Hpos & S'' & Hback & Heq & Hpos'').
  { simpl. rewrite Hdx, Hy0, Hdx', Hy0. reflexivity. }
  { exact Hmove. }
  simpl in Hdim, Hpos, Hback, Hpos''. rewrite Hdx, Hy0 in Hback, Hpos''.
  destruct S' as [dim' a' pos']. simpl in Hdim, Hpos. subst dim' pos'.
  exists (c', (x, y), (dx', 0)), S''.
  rewrite get_moves_closed by assumption.
  split; [exact Hin'|]. split; [exact Hhor'|]. split; [reflexivity|].
  split; [simpl; rewrite Hcost'; symmetry; apply cost_swap_x|].
  split; [exact Hback|]. split; [exact Heq | exact Hpos''].
Qed.

Lemma horizontal_move_reversible_witness :
  let S := Puzzle.mk (3, 3) grid_3x3 (1, 1) in
  let S' := Puzzle.mk (3, 3) [[1; 2; 3]; [4; 5; 0]; [6; 7; 8]] (2, 1) in
  well_formed S /\ empty_in_range S /\
  right_entry 3 3 1 1 ∈ Puzzle.get_moves S /\
  is_horizontal (right_entry 3 3 1 1) = true /\
  Puzzle.compute_move S S (right_entry 3 3 1 1) = Ok S' /\
  exists m' S'',
    m' ∈ Puzzle.get_moves S' /\ m'.1.2 = (1, 1) /\
    Puzzle.compute_move S' S' m' = Ok S'' /\
    Puzzle.__eq__ S'' (Puzzle.PuzzleObject S) = true.
Proof.
  split; [exact grid_3x3_well_formed|].
  split; [exact grid_3x3_empty_in_range|].
  split; [exact right_entry_in_moves_3x3|].
  split; [reflexivity|]. split; [reflexivity|].
  destruct (horizontal_move_reversible _ _ _ grid_3x3_well_formed
              grid_3x3_empty_in_range right_entry_in_moves_3x3 eq_refl eq_refl)
    as (m' & S'' & Hin & _ & Htile & _ & Hback & Heq & _).
  exists m', S''. repeat split; assumption.
Defined.

(** ** Equal states *)

(** X11. Among the well-formed states that keep the marker invariant
    (the cached coordinate is a cell of the grid, it holds 0 and no other
    cell does), two states that compare equal are the same state: same
    grid, same dimensions, same cached coordinate.  So they have the same
    move list, and every move gives the same result on both. *)
Theorem eq_states_coincide p q :
  well_formed p -> well_formed q ->
  empty_in_range p -> empty_in_range q ->
  marker_at_cache p -> marker_at_cache q ->
  Puzzle.__eq__ p (Puzzle.PuzzleObject q) = true ->
  p = q /\
  Puzzle.get_moves p = Puzzle.get_moves q /\
  forall m, Puzzle.compute_move p p m = Puzzle.compute_move q q m.
Proof.
  intros (Hwp & Hhp & Hgp) (Hwq & Hhq & Hgq) [Hxp Hyp] [Hxq Hyq] Mp Mq Heq.
  apply eq_iff_grid in Heq.
  assert (Hpq : p = q).
  { destruct p as [[wp hp] gp [xp yp]], q as [[wq hq] gq [xq yq]].
    unfold marker_at_cache, Puzzle.get_internal_state, Puzzle.get_dimensions,
      Puzzle.get_current_pos in *.
    simpl in *. subst gq.
    destruct (ndarray2_shape gp wp hp Hgp) as [E1 E2]; [lia|].
    destruct (ndarray2_shape gp wq hq Hgq) as [F1 F2]; [lia|].
    assert (Hzero : cell gp (Z.to_nat yp) (Z.to_nat xp) = Some 0)
      by (apply Mp; auto).
    apply Mq in Hzero as [Hy Hx].
    f_equal; [f_equal; congruence | f_equal; lia]. }
  subst q. auto.
Qed.

Lemma eq_states_coincide_witness :
  let S := Puzzle.mk (3, 3) grid_3x3 (1, 1) in
  well_formed S /\ empty_in_range S /\ marker_at_cache S /\
  Puzzle.__eq__ S (Puzzle.PuzzleObject S) = true /\
  Puzzle.get_moves S = Puzzle.get_moves S.
Proof.
  split; [exact grid_3x3_well_formed|].
  split; [exact grid_3x3_empty_in_range|].
  split; [exact grid_3x3_marker|]. split; [reflexivity|].
  exact (proj1 (proj2 (eq_states_coincide _ _
           grid_3x3_well_formed grid_3x3_well_formed
           grid_3x3_empty_in_range grid_3x3_empty_in_range
           grid_3x3_marker grid_3x3_marker eq_refl))).
Defined.

(** ** The goals as states *)

Section GoalStates.

Implicit Types (w h : Z).

(** The two goals of a grid size, by their grids. *)
Lemma find_goals_grids grid w h pos :
  2 <= w -> 2 <= h ->
  let line := goal_line (w * h) in
  find_goals (Puzzle.mk (w, h) grid pos) =
  Ok (Puzzle.mk (w, h) (np.rows_of (Z.to_nat w) (Z.to_nat h) line) (w - 1, h - 1),
      Puzzle.mk (w, h) (np.T (np.rows_of (Z.to_nat h) (Z.to_nat w) line))
                (w - 1, h - 1)).
Proof.
  intros Hw Hh line.
  set (a1 := np.rows_of (Z.to_nat w) (Z.to_nat h) line).
  set (a2 := np.T (np.rows_of (Z.to_nat h) (Z.to_nat w) line)).
  assert (Hlen : Z.of_nat (length line) = w * h).
  { unfold line. rewrite length_goal_line by nia. nia. }
  assert (Ha1 : ndarray2 a1 w h).
  { pose proof (rows_of_ndarray2 (Z.to_nat w) (Z.to_nat h) line) as H.
    rewrite !Z2Nat.id in H by lia. apply H. nia. }
  assert (Ha2 : ndarray2 a2 w h).
  { apply T_ndarray2; [|lia].
    pose proof (rows_of_ndarray2 (Z.to_nat h) (Z.to_nat w) line) as H.
    rewrite !Z2Nat.id in H by lia. apply H. nia. }
  assert (H1 : Puzzle.from_state a1 None = Ok (Puzzle.mk (w, h) a1 (w - 1, h - 1))).
  { apply (goal_state a1 w h (fun r c => Z.of_nat r * w + Z.of_nat c));
      try assumption; [|nia].
    intros r c Hr Hc. split; [apply goal1_cell; assumption|]. nia. }
  assert (H2 : Puzzle.from_state a2 None = Ok (Puzzle.mk (w, h) a2 (w - 1, h - 1))).
  { apply (goal_state a2 w h (fun r c => Z.of_nat c * h + Z.of_nat r));
      try assumption; [|nia].
    intros r c Hr Hc. split; [apply goal2_cell; assumption|]. nia. }
  unfold find_goals, Puzzle.get_dimensions. simpl.
  rewrite arange_rotated by nia. simpl. fold (goal_line (w * h)). fold line.
  rewrite (reshape_rows_of line h w) by lia. simpl.
  rewrite (reshape_rows_of line w h) by lia. simpl.
  fold a1 a2. rewrite H1. simpl. rewrite H2. reflexivity.
Qed.

(** A grid of goal values along an index that reaches [w*h - 1] only in
    the last cell holds its only 0 in the last cell. *)
Lemma goal_marker a w h (idx : nat -> nat -> Z) :
  2 <= w -> 2 <= h -> ndarray2 a w h ->
  (forall r c, Z.of_nat r < h -> Z.of_nat c < w ->
     cell a r c = Some (goal_value (w * h) (idx r c)) /\
     0 <= idx r c /\
     (idx r c = w * h - 1 <-> Z.of_nat r = h - 1 /\ Z.of_nat c = w - 1)) ->
  marker_at_cache (Puzzle.mk (w, h) a (w - 1, h - 1)).
Proof.
  intros Hw Hh Ha Hcells r c. simpl.
  destruct (decide (Z.of_nat r < h /\ Z.of_nat c < w)) as [[Hr Hc]|Hout].
  - destruct (Hcells r c Hr Hc) as (-> & Hpos & Hidx). split.
    + intros [= Hzero]. apply goal_value_zero in Hzero; [|exact Hpos].
      apply Hidx in Hzero. lia.
    + intros [-> ->]. f_equal. unfold goal_value.
      replace (idx (Z.to_nat (h - 1)) (Z.to_nat (w - 1))) with (w * h - 1)
        by (symmetry; apply Hidx; lia).
      rewrite Z.eqb_refl. reflexivity.
  - rewrite (cell_outside a w h r c Ha Hout). split; [discriminate|].
    intros [-> ->]. exfalso. apply Hout. lia.
Qed.

End GoalStates.

(** X12. The two goals of a state are states the other operations
    accept: each is well-formed, has the dimensions [(w, h)] of the state,
    caches the coordinate [(w-1, h-1)] of the last cell, holds a 0 there
    and in no other cell, so that [(w-1, h-1)] is where [locate_tile]
    finds the 0; and the two goals are never equal. *)
Theorem find_goals_valid grid w h pos S :
  Puzzle.__init__ grid (w, h) pos = Ok S ->
  let is_goal g :=
    well_formed g /\
    Puzzle.get_dimensions g = (w, h) /\
    Puzzle.get_current_pos g = (w - 1, h - 1) /\
    empty_in_range g /\
    marker_at_cache g /\
    Puzzle.__getitem__ g (w - 1, h - 1) = Ok 0 /\
    (forall x y, 0 <= x < w -> 0 <= y < h ->
       Puzzle.__getitem__ g (x, y) = Ok 0 -> (x, y) = (w - 1, h - 1)) /\
    Puzzle.locate_tile (Puzzle.get_internal_state g) 0 = Ok (w - 1, h - 1) in
  exists g1 g2,
    find_goals S = Ok (g1, g2) /\
    is_goal g1 /\
    is_goal g2 /\
    Puzzle.__eq__ g1 (Puzzle.PuzzleObject g2) = false.
Proof.
  intros Hinit. apply init_Ok in Hinit as (-> & Hw & Hh). simpl in Hw, Hh.
  pose proof (find_goals_grids grid w h pos Hw Hh) as Hgoals. cbv zeta in Hgoals.
  set (line := goal_line (w * h)) in *.
  set (a1 := np.rows_of (Z.to_nat w) (Z.to_nat h) line) in *.
  set (a2 := np.T (np.rows_of (Z.to_nat h) (Z.to_nat w) line)) in *.
  assert (Hlen : Z.of_nat (length line) = w * h).
  { unfold line. rewrite length_goal_line by nia. nia. }
  assert (Ha1 : ndarray2 a1 w h).
  { pose proof (rows_of_ndarray2 (Z.to_nat w) (Z.to_nat h) line) as H.
    rewrite !Z2Nat.id in H by lia. apply H. nia. }
  assert (Ha2 : ndarray2 a2 w h).
  { apply T_ndarray2; [|lia].
    pose proof (rows_of_ndarray2 (Z.to_nat h) (Z.to_nat w) line) as H.
    rewrite !Z2Nat.id in H by lia. apply H. nia. }
  assert (Hlast : in_grid w h (w - 1, h - 1)) by (split; simpl; lia).
  assert (Hm1 : marker_at_cache (Puzzle.mk (w, h) a1 (w - 1, h - 1))).
  { apply (goal_marker a1 w h (fun r c => Z.of_nat r * w + Z.of_nat c));
      try assumption.
    intros r c Hr Hc. split; [apply goal1_cell; assumption|]. nia. }
  assert (Hm2 : marker_at_cache (Puzzle.mk (w, h) a2 (w - 1, h - 1))).
  { apply (goal_marker a2 w h (fun r c => Z.of_nat c * h + Z.of_nat r));
      try assumption.
    intros r c Hr Hc. split; [apply goal2_cell; assumption|]. nia. }
  assert (Hstate : forall a,
            ndarray2 a w h ->
            marker_at_cache (Puzzle.mk (w, h) a (w - 1, h - 1)) ->
            Puzzle.from_state a None = Ok (Puzzle.mk (w, h) a (w - 1, h - 1)) ->
            let g := Puzzle.mk (w, h) a (w - 1, h - 1) in
            well_formed g /\
            Puzzle.get_dimensions g = (w, h) /\
            Puzzle.get_current_pos g = (w - 1, h - 1) /\
            empty_in_range g /\
            marker_at_cache g /\
            Puzzle.__getitem__ g (w - 1, h - 1) = Ok 0 /\
            (forall x y, 0 <= x < w -> 0 <= y < h ->
               Puzzle.__getitem__ g (x, y) = Ok 0 -> (x, y) = (w - 1, h - 1)) /\
            Puzzle.locate_tile (Puzzle.get_internal_state g) 0
            = Ok (w - 1, h - 1)).
  { intros a Ha Hm Hfrom g.
    split; [unfold well_formed; simpl; auto|].
    split; [reflexivity|]. split; [reflexivity|]. split; [exact Hlast|].
    split; [exact Hm|]. split; [|split].
    - unfold Puzzle.__getitem__. simpl.
      apply (get_in_range a w h); [exact Ha | lia | lia |].
      apply (Hm (Z.to_nat (h - 1)) (Z.to_nat (w - 1))). split; reflexivity.
    - intros x y Hx Hy. unfold Puzzle.__getitem__. simpl. intros Hget.
      destruct (cell_in_range a w h y x Ha Hy Hx) as [v Hv].
      rewrite (get_in_range a w h y x v Ha Hy Hx Hv) in Hget.
      injection Hget as ->.
      apply (Hm (Z.to_nat y) (Z.to_nat x)) in Hv as [Ey Ex].
      simpl in Ey, Ex. f_equal; lia.
    - unfold Puzzle.from_state in Hfrom. simpl.
      apply bind_Ok in Hfrom as (p & Hloc & Hinit).
      apply init_Ok in Hinit as (Hmk & _). rewrite Hloc. congruence. }
  assert (H1 : Puzzle.from_state a1 None = Ok (Puzzle.mk (w, h) a1 (w - 1, h - 1))).
  { apply (goal_state a1 w h (fun r c => Z.of_nat r * w + Z.of_nat c));
      try assumption; [|nia].
    intros r c Hr Hc. split; [apply goal1_cell; assumption|]. nia. }
  assert (H2 : Puzzle.from_state a2 None = Ok (Puzzle.mk (w, h) a2 (w - 1, h - 1))).
  { apply (goal_state a2 w h (fun r c => Z.of_nat c * h + Z.of_nat r));
      try assumption; [|nia].
    intros r c Hr Hc. split; [apply goal2_cell; assumption|]. nia. }
  eexists _, _. split; [exact Hgoals|].
  split; [exact (Hstate a1 Ha1 Hm1 H1)|].
  split; [exact (Hstate a2 Ha2 Hm2 H2)|].
  destruct (Puzzle.__eq__ _ _) eqn:Heq; [|reflexivity].
  exfalso. apply eq_iff_grid in Heq. simpl in Heq.
  assert (Hc1 : cell a1 0 1 = Some (goal_value (w * h) 1)).
  { unfold a1, line. rewrite goal1_cell by lia. do 2 f_equal; lia. }
  assert (Hc2 : cell a2 0 1 = Some (goal_value (w * h) h)).
  { unfold a2, line. rewrite goal2_cell by lia. do 2 f_equal; lia. }
  rewrite Heq, Hc2 in Hc1. injection Hc1 as Hv.
  assert (Hprod : 2 * h <= w * h) by nia.
  unfold goal_value in Hv.
  destruct (Z.eqb_spec h (w * h - 1)) as [E|_];
    destruct (Z.eqb_spec 1 (w * h - 1)) as [F|_]; lia.
Qed.

Lemma find_goals_valid_witness :
  Puzzle.__init__ grid_2x3 (2, 3) (0, 0) = Ok (Puzzle.mk (2, 3) grid_2x3 (0, 0)) /\
  exists g1 g2,
    find_goals (Puzzle.mk (2, 3) grid_2x3 (0, 0)) = Ok (g1, g2) /\
    Puzzle.get_current_pos g1 = (1, 2) /\
    Puzzle.get_current_pos g2 = (1, 2) /\
    Puzzle.__getitem__ g1 (1, 2) = Ok 0 /\
    Puzzle.__getitem__ g2 (1, 2) = Ok 0 /\
    Puzzle.locate_tile (Puzzle.get_internal_state g1) 0 = Ok (1, 2) /\
    Puzzle.locate_tile (Puzzle.get_internal_state g2) 0 = Ok (1, 2) /\
    Puzzle.__eq__ g1 (Puzzle.PuzzleObject g2) = false.
Proof.
  split; [reflexivity|].
  destruct (find_goals_valid grid_2x3 2 3 (0, 0) _ eq_refl)
    as (g1 & g2 & Hgoals & Hg1 & Hg2 & Hne).
  destruct Hg1 as (_ & _ & Hpos1 & _ & _ & Hget1 & _ & Hloc1).
  destruct Hg2 as (_ & _ & Hpos2 & _ & _ & Hget2 & _ & Hloc2).
  exists g1, g2. repeat (split; [assumption|]). exact Hne.
Defined.

(** ** Equality, cell by cell *)

(** X13. [__eq__] is equality of the grids cell by cell: two well-formed
    states are equal exactly when they have the same dimensions and the
    same value at every coordinate, so two states that differ in one cell
    are unequal; the comparison is reflexive, symmetric and transitive.
    Two equal states whose grids have the same dtype, not [float64], have
    the same hash.  And the construction path plays no part for values
    that fit [int64]: the state that [from_int_list] builds from the
    row-major listing of such a grid is the state that [from_state] builds
    from the grid. *)
Theorem eq_elementwise
    (hash : string -> Z)
    (array_str : np.dtype -> PuzzleInternalState -> string)
    (asarray_wide : list Z -> np.dtype * list Z)
    (dt : np.dtype) (p q : Puzzle.t) :
  well_formed p -> well_formed q ->
  (Puzzle.__eq__ p (Puzzle.PuzzleObject q) = true <->
     Puzzle.get_dimensions p = Puzzle.get_dimensions q /\
     forall x y,
       0 <= x < (Puzzle.get_dimensions p).1 ->
       0 <= y < (Puzzle.get_dimensions p).2 ->
       Puzzle.__getitem__ p (x, y) = Puzzle.__getitem__ q (x, y)) /\
  (forall x y,
     0 <= x < (Puzzle.get_dimensions p).1 ->
     0 <= y < (Puzzle.get_dimensions p).2 ->
     Puzzle.__getitem__ p (x, y) <> Puzzle.__getitem__ q (x, y) ->
     Puzzle.__eq__ p (Puzzle.PuzzleObject q) = false) /\
  Puzzle.__eq__ p (Puzzle.PuzzleObject p) = true /\
  Puzzle.__eq__ p (Puzzle.PuzzleObject q)
  = Puzzle.__eq__ q (Puzzle.PuzzleObject p) /\
  (forall r,
     Puzzle.__eq__ p (Puzzle.PuzzleObject q) = true ->
     Puzzle.__eq__ q (Puzzle.PuzzleObject r) = true ->
     Puzzle.__eq__ p (Puzzle.PuzzleObject r) = true) /\
  (dt <> np.float64 ->
   Puzzle.__eq__ p (Puzzle.PuzzleObject q) = true ->
   Puzzle.__hash__ hash array_str dt p = Puzzle.__hash__ hash array_str dt q) /\
  (Forall (fun z => np.fits_int64 z = true)
          (concat (Puzzle.get_internal_state p)) ->
   Puzzle.from_int_list asarray_wide (concat (Puzzle.get_internal_state p))
                        (Puzzle.get_dimensions p)
   = Puzzle.from_state (Puzzle.get_internal_state p) None).
Proof.
  intros Hp Hq.
  assert (Hshape : Puzzle.__grid p = Puzzle.__grid q ->
                   Puzzle.get_dimensions p = Puzzle.get_dimensions q).
  { intros Hgrid.
    destruct Hp as (_ & Hhp & Hgp), Hq as (_ & Hhq & Hgq).
    unfold Puzzle.get_internal_state in *.
    destruct (ndarray2_shape _ _ _ Hgp) as [E1 E2]; [lia|].
    destruct (ndarray2_shape _ _ _ Hgq) as [F1 F2]; [lia|].
    rewrite Hgrid in E1, E2.
    destruct (Puzzle.get_dimensions p), (Puzzle.get_dimensions q).
    simpl in *. congruence. }
  split; [|split; [|split; [|split; [|split; [|split]]]]].
  - rewrite eq_iff_grid. split.
    + intros Hgrid. split; [auto|].
      intros x y _ _. unfold Puzzle.__getitem__. rewrite Hgrid. reflexivity.
    + intros [Hdim Hcells]. apply grid_ext; assumption.
  - intros x y Hx Hy Hne.
    destruct (Puzzle.__eq__ p (Puzzle.PuzzleObject q)) eqn:Heq; [|reflexivity].
    exfalso. apply Hne. apply eq_iff_grid in Heq.
    unfold Puzzle.__getitem__. rewrite Heq. reflexivity.
  - apply eq_iff_grid. reflexivity.
  - destruct (Puzzle.__eq__ p (Puzzle.PuzzleObject q)) eqn:Hpq.
    + symmetry. apply eq_iff_grid. apply eq_iff_grid in Hpq. congruence.
    + destruct (Puzzle.__eq__ q (Puzzle.PuzzleObject p)) eqn:Hqp; [|reflexivity].
      apply eq_iff_grid in Hqp. symmetry in Hqp. apply eq_iff_grid in Hqp.
      congruence.
  - intros r. rewrite !eq_iff_grid. congruence.
  - intros _. rewrite eq_iff_grid. unfold Puzzle.__hash__. intros ->. reflexivity.
  - intros Hfits. destruct Hp as (Hw & Hh & Hg).
    unfold Puzzle.from_int_list.
    rewrite (proj1 (asarray_fits asarray_wide _ Hfits)).
    rewrite (reshape_concat _ _ _ Hg) by lia. reflexivity.
Qed.

Lemma eq_elementwise_witness :
  let p := Puzzle.mk (3, 3) grid_3x3 (1, 1) in
  let q := Puzzle.mk (3, 3) [[1; 2; 3]; [4; 0; 5]; [6; 7; 9]] (1, 1) in
  let asarray_wide := fun _ : list Z => (np.object_, @nil Z) in
  well_formed p /\ well_formed q /\
  Puzzle.__getitem__ p (2, 2) = Ok 8 /\
  Puzzle.__getitem__ q (2, 2) = Ok 9 /\
  Puzzle.__eq__ p (Puzzle.PuzzleObject q) = false /\
  Puzzle.from_int_list asarray_wide [1; 2; 3; 4; 0; 5; 6; 7; 8] (3, 3)
  = Puzzle.from_state grid_3x3 None.
Proof.
  cbv zeta.
  assert (Hq : well_formed
                 (Puzzle.mk (3, 3) [[1; 2; 3]; [4; 0; 5]; [6; 7; 9]] (1, 1))).
  { unfold well_formed, ndarray2. simpl.
    split; [lia|]. split; [lia|]. split; [reflexivity|].
    repeat constructor. }
  split; [exact grid_3x3_well_formed|]. split; [exact Hq|].
  split; [reflexivity|]. split; [reflexivity|].
  pose proof (eq_elementwise (fun s => Z.of_nat (String.length s))
                (fun _ _ => "grid"%string)
                (fun _ => (np.object_, [])) np.int64 _ _
                grid_3x3_well_formed Hq)
    as (_ & Hdiff & _ & _ & _ & _ & Hpath).
  split.
  - apply (Hdiff 2 2); [simpl; lia | simpl; lia | discriminate].
  - apply Hpath. repeat constructor.
Defined.
